(** * IB client-id tracker and connection life cycle

    A shallow embedding of [sysbrokers/IB/ibConnection.py]:
    - [ib_defaults], the resolution of address, port and id offset;
    - [mongoIBclientIDtracker], the allocator of client ids over a shared
      MongoDB collection;
    - [connectionIB], construction and [close_connection].

    Python integers are [Z].  The methods of the source talk to a shared
    collection, to a logger and to the IB client; they are embedded as
    trees of such operations ([prog]) and run by an interpreter that
    threads the collection, records every operation performed, and lets
    other processes change the collection between two operations. *)

From stdpp Require Import gmap strings list.
From Stdlib Require Import ZArith Lia.

Local Open Scope Z_scope.

(** ** Python values and exceptions *)

(** The values that travel through [ib_defaults]: [None], integers and
    strings. *)
Inductive pyval : Type :=
| VNone
| VInt (z : Z)
| VStr (s : string).

#[global] Instance pyval_eq_dec : EqDecision pyval.
Proof. solve_decision. Defined.

Inductive exn : Type :=
| AttributeError
| TypeError
| ValueError
| DuplicateKeyError
| IBError (what : string).

#[global] Instance exn_eq_dec : EqDecision exn.
Proof. solve_decision. Defined.

(** The outcome of a Python call: a value, or a raised exception. *)
Inductive result (A : Type) : Type :=
| Ok (a : A)
| Raise (e : exn).
Arguments Ok {A} a.
Arguments Raise {A} e.

#[global] Instance result_ret : MRet result := @Ok.
#[global] Instance result_bind : MBind result :=
  λ A B f r, match r with Ok a => f a | Raise e => Raise e end.

Definition is_ok {A} (r : result A) : bool :=
  match r with Ok _ => true | Raise _ => false end.

Definition value_of {A} (r : result A) : option A :=
  match r with Ok a => Some a | Raise _ => None end.

(** ** Configuration: [ib_defaults] *)

Definition DEFAULT_IB_IPADDRESS : string := "127.0.0.1".
Definition DEFAULT_IB_PORT : Z := 4001.
Definition DEFAULT_IB_IDOFFSET : Z := 1.

(** What [yaml.load] hands back for a file it could read: a mapping, or
    any other document (an empty file loads as [None], a sequence as a
    list, a scalar as itself). *)
Inductive yaml_doc : Type :=
| YMapping (d : gmap string pyval)
| YNotMapping.

(** The [try] block of [ib_defaults]: [open] or [yaml.load] raised (the
    file is missing or cannot be parsed), or a document was loaded. *)
Inductive config_source : Type :=
| LoadFails
| Loaded (doc : yaml_doc).

(** [yaml_dict[key] = value] *)
Definition py_setitem (doc : yaml_doc) (key : string) (value : pyval)
  : result yaml_doc :=
  match doc with
  | YMapping d => Ok (YMapping (<[key := value]> d))
  | YNotMapping => Raise TypeError
  end.

(** [yaml_dict.get(key, dflt)] *)
Definition py_get (doc : yaml_doc) (key : string) (dflt : pyval)
  : result pyval :=
  match doc with
  | YMapping d => Ok (default dflt (d !! key))
  | YNotMapping => Raise AttributeError
  end.

(** [kwargs.get(arg_name, None)] *)
Definition kwargs_get (kwargs : gmap string pyval) (arg_name : string) : pyval :=
  default VNone (kwargs !! arg_name).

(** One turn of the loop over the argument names. *)
Definition overwrite_with_arg (kwargs : gmap string pyval)
    (yaml_dict : yaml_doc) (arg_name : string) : result yaml_doc :=
  let arg_value := kwargs_get kwargs arg_name in
  if decide (arg_value = VNone) then Ok yaml_dict
  else py_setitem yaml_dict ("ib_" +:+ arg_name) arg_value.

Fixpoint overwrite_with_args (kwargs : gmap string pyval)
    (yaml_dict : yaml_doc) (arg_names : list string) : result yaml_doc :=
  match arg_names with
  | [] => Ok yaml_dict
  | arg_name :: rest =>
      yaml_dict' ← overwrite_with_arg kwargs yaml_dict arg_name;
      overwrite_with_args kwargs yaml_dict' rest
  end.

Definition ib_defaults (config_file : config_source)
    (kwargs : gmap string pyval) : result (pyval * pyval * pyval) :=
  let yaml_dict :=
    match config_file with
    | Loaded doc => doc
    | LoadFails => YMapping ∅
    end in
  yaml_dict ← overwrite_with_args kwargs yaml_dict
                 ["ipaddress"; "port"; "idoffset"]%string;
  ipaddress ← py_get yaml_dict "ib_ipaddress" (VStr DEFAULT_IB_IPADDRESS);
  port ← py_get yaml_dict "ib_port" (VInt DEFAULT_IB_PORT);
  idoffset ← py_get yaml_dict "ib_idoffset" (VInt DEFAULT_IB_IDOFFSET);
  Ok (ipaddress, port, idoffset).

(** ** Operations on the outside world *)

(** The resolved parameters of one session: [_ib_connection_config]. *)
Record ib_connection_config : Type := mk_config {
  cfg_ipaddress : pyval;
  cfg_port : pyval;
  cfg_client : Z
}.

#[global] Instance ib_connection_config_eq_dec : EqDecision ib_connection_config.
Proof. solve_decision. Defined.

(** What the methods write to their logger. *)
Inductive log_entry : Type :=
| MsgLocked (id : Z)              (* "Locked ID %d" *)
| MsgReleased (id : Z)            (* "Released ID %d" *)
| MsgReleasedAll                  (* "Released all IDs" *)
| MsgTerminating (cfg : ib_connection_config)
| WarnDisconnectFailed
| Label (clientid : Z).           (* log.label(broker="IB", clientid=...) *)

#[global] Instance log_entry_eq_dec : EqDecision log_entry.
Proof. solve_decision. Defined.

(** Calls into the IB client and server base classes and the thread
    library, none of which is part of this file. *)
Inductive ext_call : Type :=
| IbServerInit
| IbClientInit (reqIDoffset : Z)
| BrokerInitError
| Connect (ipaddress port : pyval) (client : Z)
| ThreadStart
| Disconnect.

#[global] Instance ext_call_eq_dec : EqDecision ext_call.
Proof. solve_decision. Defined.

(** A method body as a tree of operations.  [Find] is
    [collection.find()] projected on [client_id]; [InsertOne] hands its
    continuation [false] when the collection rejects the document;
    [Extern] hands its continuation the exception the call raised, if
    any. *)
Inductive prog (A : Type) : Type :=
| Ret (a : A)
| Throw (e : exn)
| Find (k : list Z → prog A)
| InsertOne (id : Z) (k : bool → prog A)
| DeleteOne (id : Z) (k : prog A)
| DeleteMany (k : prog A)
| Log (m : log_entry) (k : prog A)
| Extern (c : ext_call) (k : option exn → prog A).
Arguments Ret {A} a.
Arguments Throw {A} e.
Arguments Find {A} k.
Arguments InsertOne {A} id k.
Arguments DeleteOne {A} id k.
Arguments DeleteMany {A} k.
Arguments Log {A} m k.
Arguments Extern {A} c k.

Fixpoint bind {A B} (p : prog A) (f : A → prog B) : prog B :=
  match p with
  | Ret a => f a
  | Throw e => Throw e
  | Find k => Find (λ l, bind (k l) f)
  | InsertOne id k => InsertOne id (λ b, bind (k b) f)
  | DeleteOne id k => DeleteOne id (bind k f)
  | DeleteMany k => DeleteMany (bind k f)
  | Log m k => Log m (bind k f)
  | Extern c k => Extern c (λ o, bind (k o) f)
  end.

#[global] Instance prog_ret : MRet prog := @Ret.
#[global] Instance prog_bind : MBind prog := λ A B f p, bind p f.

(** [try: body  except: handler] with a bare [except], which catches
    every exception. *)
Fixpoint try_except {A} (body : prog A) (handler : exn → prog A) : prog A :=
  match body with
  | Ret a => Ret a
  | Throw e => handler e
  | Find k => Find (λ l, try_except (k l) handler)
  | InsertOne id k => InsertOne id (λ b, try_except (k b) handler)
  | DeleteOne id k => DeleteOne id (try_except k handler)
  | DeleteMany k => DeleteMany (try_except k handler)
  | Log m k => Log m (try_except k handler)
  | Extern c k => Extern c (λ o, try_except (k o) handler)
  end.

(** [try: body  finally: cleanup]: the cleanup runs on both exits, and an
    exception of the body is raised again after it. *)
Fixpoint try_finally {A} (body : prog A) (cleanup : prog ()) : prog A :=
  match body with
  | Ret a => bind cleanup (λ _, Ret a)
  | Throw e => bind cleanup (λ _, Throw e)
  | Find k => Find (λ l, try_finally (k l) cleanup)
  | InsertOne id k => InsertOne id (λ b, try_finally (k b) cleanup)
  | DeleteOne id k => DeleteOne id (try_finally k cleanup)
  | DeleteMany k => DeleteMany (try_finally k cleanup)
  | Log m k => Log m (try_finally k cleanup)
  | Extern c k => Extern c (λ o, try_finally (k o) cleanup)
  end.

(** The primitive calls, as the source writes them. *)
Definition lift {A} (r : result A) : prog A :=
  match r with Ok a => Ret a | Raise e => Throw e end.
Definition find : prog (list Z) := Find Ret.
Definition insert_one (id : Z) : prog () :=
  InsertOne id (λ accepted, if accepted then Ret () else Throw DuplicateKeyError).
Definition delete_one (id : Z) : prog () := DeleteOne id (Ret ()).
Definition delete_many : prog () := DeleteMany (Ret ()).
Definition log (m : log_entry) : prog () := Log m (Ret ()).
Definition extern (c : ext_call) : prog () :=
  Extern c (λ o, match o with None => Ret () | Some e => Throw e end).

(** ** The lock table *)

(** Modelled from the spec: [mongoConnection] and the collection behind
    it are not part of this file.  The collection [IBClientTracker]
    holds one document per held id and carries a unique index on
    [client_id]: [insert] fails with [DuplicateKey] if a record for that id
    already exists and otherwise persists it; [delete] removes the record
    if present and is no error if absent; [delete_all] removes every
    record.  The table is the list of the [client_id] fields of its
    documents, in the order [find()] yields them. *)
Abbreviation table := (list Z).

(** Modelled from the spec: [insert_one] on the collection, which is not
    part of this file.  It "fails with DuplicateKey if a record for that
    ID already exists (constraint violation), otherwise persists it";
    [None] is the failure. *)
Definition table_insert (id : Z) (t : table) : option table :=
  if decide (id ∈ t) then None else Some (t ++ [id]).

(** Modelled from the spec: [delete_one] on the collection, which is not
    part of this file.  It "removes the record if present; no error if
    absent": the first document that matches, as MongoDB does. *)
Fixpoint table_delete (id : Z) (t : table) : table :=
  match t with
  | [] => []
  | x :: rest => if decide (x = id) then rest else x :: table_delete id rest
  end.

(** ** Running a method *)

(** What a run did, in order. *)
Inductive event : Type :=
| EvFind (snapshot : list Z)
| EvInsert (id : Z) (accepted : bool)
| EvDelete (id : Z)
| EvDeleteMany
| EvLog (m : log_entry)
| EvExtern (c : ext_call) (raised : option exn).

#[global] Instance event_eq_dec : EqDecision event.
Proof. solve_decision. Defined.

(** The other processes of the fleet: the changes they make to the table
    just before each of our table operations, in order; past the end of
    the list they do nothing. *)
Abbreviation schedule := (list (list Z → list Z)).

Definition interfere (others : schedule) (t : table) : table :=
  match others with
  | [] => t
  | f :: _ => f t
  end.

Definition outcome (A : Type) : Type := result A * table * list event.

Definition emit {A} (ev : event) (o : outcome A) : outcome A :=
  let '(r, t, tr) := o in (r, t, ev :: tr).

(** [oracle] tells which external calls raise. *)
Fixpoint run_with {A} (oracle : ext_call → option exn) (others : schedule)
    (p : prog A) (t : table) : outcome A :=
  match p with
  | Ret a => (Ok a, t, [])
  | Throw e => (Raise e, t, [])
  | Find k =>
      let t := interfere others t in
      emit (EvFind t) (run_with oracle (tail others) (k t) t)
  | InsertOne id k =>
      let t := interfere others t in
      match table_insert id t with
      | Some t' => emit (EvInsert id true) (run_with oracle (tail others) (k true) t')
      | None => emit (EvInsert id false) (run_with oracle (tail others) (k false) t)
      end
  | DeleteOne id k =>
      let t := interfere others t in
      emit (EvDelete id) (run_with oracle (tail others) k (table_delete id t))
  | DeleteMany k =>
      let t := interfere others t in
      emit EvDeleteMany (run_with oracle (tail others) k [])
  | Log m k => emit (EvLog m) (run_with oracle others k t)
  | Extern c k => emit (EvExtern c (oracle c)) (run_with oracle others (k (oracle c)) t)
  end.

(** A run with no other process at work. *)
Definition run {A} (oracle : ext_call → option exn) (p : prog A) (t : table)
  : outcome A :=
  run_with oracle [] p t.

Definition no_failure : ext_call → option exn := λ _, None.

Definition res {A} (o : outcome A) : result A := o.1.1.
Definition tbl {A} (o : outcome A) : table := o.1.2.
Definition trace {A} (o : outcome A) : list event := o.2.

(** ** Python built-ins used by the allocator *)

(** [max(l)] on a list: [ValueError] when the list is empty. *)
Definition py_max (l : list Z) : result Z :=
  match l with
  | [] => Raise ValueError
  | x :: rest => Ok (foldr Z.max x rest)
  end.

(** [min(s)] on a set: [ValueError] when the set is empty. *)
Definition py_min (s : gset Z) : result Z :=
  match elements s with
  | [] => Raise ValueError
  | x :: rest => Ok (foldr Z.min x rest)
  end.

(** [range(a, b)]: empty when [b <= a]. *)
Definition py_range (a b : Z) : list Z := seqZ a (b - a).

(** An argument that must be an integer, as [range] demands of its
    bounds and ["%d" % x] of [x]. *)
Definition as_int (v : pyval) : result Z :=
  match v with
  | VInt z => Ok z
  | _ => Raise TypeError
  end.

(** ** [mongoIBclientIDtracker] *)

Record mongoIBclientIDtracker : Type := mk_tracker {
  _idoffset : pyval;
  tracker_log : string
}.

(** [__init__]: an offset that is [None] is resolved by [ib_defaults()]
    with no argument.  (Opening the collection and creating its index
    belong to [mongoConnection].) *)
Definition mongoIBclientIDtracker_init (config_file : config_source)
    (idoffset : pyval) (log : string) : result mongoIBclientIDtracker :=
  idoffset ← (if decide (idoffset = VNone)
              then '(_, _, idoffset) ← ib_defaults config_file ∅; Ok idoffset
              else Ok idoffset);
  Ok {| _idoffset := idoffset; tracker_log := log |}.

Definition _get_list_of_clientids (self : mongoIBclientIDtracker)
  : prog (list Z) :=
  find.

Definition _is_clientid_used (self : mongoIBclientIDtracker) (clientid : Z)
  : prog bool :=
  current_ids ← _get_list_of_clientids self;
  if decide (clientid ∈ current_ids) then Ret true else Ret false.

Definition _add_clientid (self : mongoIBclientIDtracker) (next_id : Z)
  : prog () :=
  insert_one next_id;;
  log (MsgLocked next_id).

(** The id that [get_next_clientid] settles on, from the list it read.
    An offset that is not an integer ends the call with [TypeError]: in
    [range] when the list is not empty, and in the ["%d"] of
    [_add_clientid] when it is (there the source has by then inserted
    the offset itself as a document, which a table of integers does not
    show). *)
Definition next_id_of (self : mongoIBclientIDtracker) (current_list : list Z)
  : result Z :=
  if decide (length current_list = 0%nat) then
    as_int (_idoffset self)
  else
    hi ← py_max current_list;
    lo ← as_int (_idoffset self);
    let full_set : gset Z := list_to_set (py_range lo (hi + 2)) in
    let missing_values := full_set ∖ list_to_set current_list in
    py_min missing_values.

Definition get_next_clientid (self : mongoIBclientIDtracker) : prog Z :=
  current_list ← _get_list_of_clientids self;
  next_id ← lift (next_id_of self current_list);
  _add_clientid self next_id;;
  Ret next_id.

(** The names bound in the class body and on its instances; the class
    derives from [object] alone. *)
Definition mongoIBclientIDtracker_names : list string :=
  [ "__init__"; "__repr__"; "_is_clientid_used"; "return_valid_client_id";
    "get_next_clientid"; "_get_list_of_clientids"; "_add_clientid";
    "clear_all_clientids"; "release_clientid";
    "_mongo"; "name"; "log"; "_idoffset" ]%string.

(** [self.<name>(clientid)] where a truth value is expected: a name that
    is not bound raises [AttributeError].  Of the bound names only
    [_is_clientid_used] is a method of one client id that answers a
    truth value; the source calls no other this way. *)
Definition call_predicate (self : mongoIBclientIDtracker) (name : string)
    (clientid : Z) : prog bool :=
  if decide (name ∈ mongoIBclientIDtracker_names) then
    if decide (name = "_is_clientid_used"%string)
    then _is_clientid_used self clientid
    else Throw TypeError
  else Throw AttributeError.

Definition return_valid_client_id (self : mongoIBclientIDtracker)
    (clientid_to_try : option Z) : prog Z :=
  match clientid_to_try with
  | None => get_next_clientid self
  | Some clientid_to_try =>
      used ← call_predicate self "is_clientid_used" clientid_to_try;
      if (used : bool) then
        get_next_clientid self
      else
        let clientid_to_use := clientid_to_try in
        _add_clientid self clientid_to_use;;
        Ret clientid_to_use
  end.

Definition clear_all_clientids (self : mongoIBclientIDtracker) : prog () :=
  delete_many;;
  log MsgReleasedAll.

Definition release_clientid (self : mongoIBclientIDtracker) (clientid : Z)
  : prog () :=
  delete_one clientid;;
  log (MsgReleased clientid).

(** ** [connectionIB] *)

Record connectionIB : Type := mk_connection {
  db_id_tracker : mongoIBclientIDtracker;
  _ib_connection_config : ib_connection_config
}.

(** The first two statements of [__init__]: resolve the defaults from the
    two forwarded arguments, then build the tracker. *)
Definition connectionIB_tracker (config_file : config_source)
    (client : option Z) (ipaddress port : pyval) (log : string)
  : result (pyval * pyval * mongoIBclientIDtracker) :=
  '(ipaddress, port, idoffset) ←
    ib_defaults config_file
      (<["ipaddress"%string := ipaddress]> (<["port"%string := port]> ∅));
  db_id_tracker ← mongoIBclientIDtracker_init config_file idoffset log;
  Ok (ipaddress, port, db_id_tracker).

Definition connectionIB_init (config_file : config_source)
    (client : option Z) (ipaddress port : pyval) (log_name : string)
  : prog connectionIB :=
  '(ipaddress, port, db_id_tracker) ←
    lift (connectionIB_tracker config_file client ipaddress port log_name);
  client ← return_valid_client_id db_id_tracker client;
  log (Label client);;
  let _ib_connection_config := mk_config ipaddress port client in
  let reqIDoffset := client * 1000 in
  extern IbServerInit;;
  extern (IbClientInit reqIDoffset);;
  extern BrokerInitError;;
  extern (Connect ipaddress port client);;
  extern ThreadStart;;
  Ret (mk_connection db_id_tracker _ib_connection_config).

Definition close_connection (self : connectionIB) : prog () :=
  log (MsgTerminating (_ib_connection_config self));;
  try_finally
    (try_except (extern Disconnect) (λ _, log WarnDisconnectFailed))
    (release_clientid (db_id_tracker self)
       (cfg_client (_ib_connection_config self))).

(** ** Vocabulary of the properties *)

(** [m] is the largest element of the list [l]. *)
Definition is_max (m : Z) (l : list Z) : Prop :=
  m ∈ l ∧ ∀ y, y ∈ l → y ≤ m.

(** [m] is the least integer that satisfies [P]. *)
Definition is_least (m : Z) (P : Z → Prop) : Prop :=
  P m ∧ ∀ y, P y → m ≤ y.

(** The candidates of [get_next_clientid]: the integers from the offset
    through [hi + 1] that the list does not hold. *)
Definition candidate (offset hi : Z) (held : list Z) (x : Z) : Prop :=
  (offset ≤ x ≤ hi + 1) ∧ x ∉ held.

(** The records of the other ids, in their order. *)
Definition others_of (id : Z) (t : table) : list Z :=
  filter (λ x, x ≠ id) t.

(** The snapshots a run read, and the inserts it attempted, in order. *)
Definition reads (tr : list event) : list (list Z) :=
  omap (λ ev, match ev with EvFind snapshot => Some snapshot | _ => None end) tr.

Definition insert_attempts (tr : list event) : list (Z * bool) :=
  omap (λ ev, match ev with
              | EvInsert id accepted => Some (id, accepted)
              | _ => None
              end) tr.

(** The ids a run released, in order. *)
Definition released (tr : list event) : list Z :=
  omap (λ ev, match ev with EvDelete id => Some id | _ => None end) tr.

(** An outside world in which [disconnect] times out. *)
Definition disconnect_fails : ext_call → option exn :=
  λ c, if decide (c = Disconnect) then Some (IBError "timeout") else None.

(** The precedence in the words of the docstring of [ib_defaults]: the
    argument if it was passed and is not [None], else the entry of the
    config file, else the default. *)
Definition by_precedence (passed configured : option pyval) (hardcoded : pyval)
  : pyval :=
  match passed with
  | Some v => if decide (v = VNone) then default hardcoded configured else v
  | None => default hardcoded configured
  end.

(** The offset that the config file alone gives. *)
Definition configured_idoffset (config_file : config_source) : option pyval :=
  match config_file with
  | LoadFails => Some (VInt DEFAULT_IB_IDOFFSET)
  | Loaded (YMapping d) => Some (default (VInt DEFAULT_IB_IDOFFSET) (d !! "ib_idoffset"))
  | Loaded YNotMapping => None
  end.

(** The offset of the tracker that [connectionIB.__init__] builds, if it
    gets that far. *)
Definition idoffset_used (r : result (pyval * pyval * mongoIBclientIDtracker))
  : option pyval :=
  (λ built, _idoffset built.2) <$> value_of r.

(** How many operations on the table a run made: so many steps of the
    other processes were consumed. *)
Definition is_table_op (ev : event) : bool :=
  match ev with
  | EvFind _ | EvInsert _ _ | EvDelete _ | EvDeleteMany => true
  | EvLog _ | EvExtern _ _ => false
  end.

Fixpoint table_ops (tr : list event) : nat :=
  match tr with
  | [] => 0
  | ev :: tr => if is_table_op ev then S (table_ops tr) else table_ops tr
  end.

(** [p] first; if it returns, the rest on the table and against the
    schedule that [p] left. *)
Definition then_run {A B} (first : outcome A) (rest : A → nat → table → outcome B)
  : outcome B :=
  match first with
  | (Ok a, t, tr) =>
      let '(r, t', tr') := rest a (table_ops tr) t in (r, t', tr ++ tr')
  | (Raise e, t, tr) => (Raise e, t, tr)
  end.

(** Modelled from the spec: [ibClient], which numbers the requests, is
    not part of this file.  The request-ID sub-namespace of a session is
    "a disjoint range of outbound protocol request identifiers derived
    from the slot ID (slot_id * 1000)": the thousand identifiers from the
    offset of the session on. *)
Definition reqID_namespace (reqIDoffset reqId : Z) : bool :=
  bool_decide (reqIDoffset ≤ reqId < reqIDoffset + 1000).

(** What a construction that succeeds did after its read of the table. *)
Definition init_events (ipaddress port : pyval) (client : Z) : list event :=
  [ EvInsert client true; EvLog (MsgLocked client); EvLog (Label client);
    EvExtern IbServerInit None;
    EvExtern (IbClientInit (client * 1000)) None;
    EvExtern BrokerInitError None;
    EvExtern (Connect ipaddress port client) None;
    EvExtern ThreadStart None ].

(** ** Sequences of calls *)

(** [n] calls of [get_next_clientid] in a row by one process, with the
    ids they returned. *)
Fixpoint allocate_many (self : mongoIBclientIDtracker) (n : nat)
  : prog (list Z) :=
  match n with
  | O => Ret []
  | S n =>
      next_id ← get_next_clientid self;
      more ← allocate_many self n;
      Ret (next_id :: more)
  end.

(** The tables on which [get_next_clientid] finds a candidate: empty, or
    with a largest id of at least [offset - 1]. *)
Definition allocatable (offset : Z) (held : list Z) : Prop :=
  held = [] ∨ ∃ hi, is_max hi held ∧ offset - 1 ≤ hi.

(** [x] is free from the offset upwards. *)
Definition free_from (offset : Z) (held : list Z) (x : Z) : Prop :=
  offset ≤ x ∧ x ∉ held.


(** * Properties *)

(** ** Built-ins *)

Lemma foldr_max_spec (l : list Z) (x : Z) :
  foldr Z.max x l ∈ x :: l ∧ ∀ y, y ∈ x :: l → y ≤ foldr Z.max x l.
Proof.
  induction l as [|a l [IHin IHub]]; simpl.
  - split; [left|]. intros y Hy. apply list_elem_of_singleton in Hy. lia.
  - split.
    + destruct (Z.max_spec a (foldr Z.max x l)) as [[_ ->]|[_ ->]].
      * apply elem_of_cons in IHin as [->|Hin]; [left | right; right; exact Hin].
      * right; left.
    + intros y Hy.
      assert (y = a ∨ y ∈ x :: l) as [->|Hy']; [|lia|].
      { rewrite !elem_of_cons in Hy. rewrite elem_of_cons. tauto. }
      specialize (IHub y Hy'). lia.
Qed.

Lemma foldr_min_spec (l : list Z) (x : Z) :
  foldr Z.min x l ∈ x :: l ∧ ∀ y, y ∈ x :: l → foldr Z.min x l ≤ y.
Proof.
  induction l as [|a l [IHin IHlb]]; simpl.
  - split; [left|]. intros y Hy. apply list_elem_of_singleton in Hy. lia.
  - split.
    + destruct (Z.min_spec a (foldr Z.min x l)) as [[_ ->]|[_ ->]].
      * right; left.
      * apply elem_of_cons in IHin as [->|Hin]; [left | right; right; exact Hin].
    + intros y Hy.
      assert (y = a ∨ y ∈ x :: l) as [->|Hy']; [|lia|].
      { rewrite !elem_of_cons in Hy. rewrite elem_of_cons. tauto. }
      specialize (IHlb y Hy'). lia.
Qed.

Lemma is_max_unique m m' l : is_max m l → is_max m' l → m = m'.
Proof. intros [H1 H2] [H3 H4]. specialize (H2 _ H3). specialize (H4 _ H1). lia. Qed.

Lemma is_least_unique m m' P : is_least m P → is_least m' P → m = m'.
Proof. intros [H1 H2] [H3 H4]. specialize (H2 _ H3). specialize (H4 _ H1). lia. Qed.

Lemma py_max_nonempty (l : list Z) :
  l ≠ [] → ∃ m, py_max l = Ok m ∧ is_max m l.
Proof.
  destruct l as [|x l]; [done|]. intros _.
  exists (foldr Z.max x l). split; [done|]. apply foldr_max_spec.
Qed.

Lemma py_min_empty (s : gset Z) : s = ∅ → py_min s = Raise ValueError.
Proof. intros ->. unfold py_min. by rewrite elements_empty. Qed.

Lemma py_min_nonempty (s : gset Z) :
  s ≠ ∅ → ∃ m, py_min s = Ok m ∧ is_least m (λ x, x ∈ s).
Proof.
  intros Hne. unfold py_min.
  destruct (elements s) as [|x l] eqn:E.
  - apply elements_empty_inv in E. apply leibniz_equiv in E. done.
  - exists (foldr Z.min x l). split; [done|].
    destruct (foldr_min_spec l x) as [Hin Hlb]. split.
    + apply elem_of_elements. by rewrite E.
    + intros y Hy. apply Hlb. rewrite <- E. by apply elem_of_elements.
Qed.

Lemma elem_of_py_range (a b x : Z) : x ∈ py_range a b ↔ a ≤ x < b.
Proof. unfold py_range. rewrite elem_of_seqZ. lia. Qed.

(** The set [missing_values] of [get_next_clientid]. *)
Lemma elem_of_missing_values (lo hi x : Z) (current_list : list Z) :
  x ∈ (list_to_set (py_range lo (hi + 2)) : gset Z) ∖ list_to_set current_list
  ↔ (lo ≤ x ≤ hi + 1) ∧ x ∉ current_list.
Proof.
  rewrite elem_of_difference, !elem_of_list_to_set, elem_of_py_range.
  split; (intros [Hrange Hfree]; split; [lia | exact Hfree]).
Qed.

(** ** The next free id *)

Lemma next_id_of_empty (offset : Z) (l : string) :
  next_id_of (mk_tracker (VInt offset) l) [] = Ok offset.
Proof. reflexivity. Qed.

Lemma next_id_of_cons (offset : Z) (l : string) (held : list Z) :
  held ≠ [] →
  ∃ hi, is_max hi held ∧
    next_id_of (mk_tracker (VInt offset) l) held =
    py_min (list_to_set (py_range offset (hi + 2)) ∖ list_to_set held).
Proof.
  intros Hne. destruct (py_max_nonempty held Hne) as (hi & Hmax & Hhi).
  exists hi. split; [exact Hhi|].
  unfold next_id_of. destruct (decide (length held = 0%nat)) as [Hlen|_].
  - destruct held; [done | discriminate Hlen].
  - rewrite Hmax. reflexivity.
Qed.

Lemma next_id_of_below_offset (offset hi : Z) (l : string) (held : list Z) :
  is_max hi held → hi + 1 < offset →
  next_id_of (mk_tracker (VInt offset) l) held = Raise ValueError.
Proof.
  intros Hhi Hlt.
  assert (held ≠ []) as Hne.
  { intros ->. destruct Hhi as [Hin _]. by apply elem_of_nil in Hin. }
  destruct (next_id_of_cons offset l held Hne) as (hi' & Hhi' & ->).
  rewrite (is_max_unique _ _ _ Hhi' Hhi).
  apply py_min_empty. apply leibniz_equiv. apply elem_of_equiv_empty.
  intros x Hx. apply elem_of_missing_values in Hx. lia.
Qed.

Lemma next_id_of_from_offset (offset hi : Z) (l : string) (held : list Z) :
  is_max hi held → offset ≤ hi + 1 →
  ∃ m, next_id_of (mk_tracker (VInt offset) l) held = Ok m ∧
       is_least m (candidate offset hi held).
Proof.
  intros Hhi Hle.
  assert (held ≠ []) as Hne.
  { intros ->. destruct Hhi as [Hin _]. by apply elem_of_nil in Hin. }
  destruct (next_id_of_cons offset l held Hne) as (hi' & Hhi' & ->).
  rewrite (is_max_unique _ _ _ Hhi' Hhi).
  set (missing_values := list_to_set (py_range offset (hi + 2)) ∖ list_to_set held).
  assert (hi + 1 ∈ missing_values) as Hin.
  { apply elem_of_missing_values. split; [lia|].
    intros Hheld. destruct Hhi as [_ Hub]. specialize (Hub _ Hheld). lia. }
  destruct (py_min_nonempty missing_values) as (m & -> & Hm & Hlb).
  { intros Hempty. rewrite Hempty in Hin. by apply not_elem_of_empty in Hin. }
  exists m. split; [done|]. split.
  - by apply elem_of_missing_values.
  - intros y Hy. apply Hlb. by apply elem_of_missing_values.
Qed.

(** A candidate that is least is also the least free id from the offset
    upwards, whatever its size. *)
Lemma least_candidate_least_free (offset hi m : Z) (held : list Z) :
  is_max hi held → is_least m (candidate offset hi held) →
  is_least m (λ x, offset ≤ x ∧ x ∉ held).
Proof.
  intros [_ Hub] [[Hrange Hfree] Hlb]. split; [split; [lia | done]|].
  intros y [Hy Hyfree].
  destruct (decide (y ≤ hi + 1)) as [Hsmall|Hbig]; [|lia].
  apply Hlb. split; [lia | done].
Qed.

(** ** What a run of [get_next_clientid] does *)

(** One read, then at most one attempt to insert: the outcome of the
    call in terms of the table it read and the table it inserts into. *)
Lemma run_get_next_clientid oracle (others : schedule)
    (self : mongoIBclientIDtracker) (t : table) :
  run_with oracle others (get_next_clientid self) t =
  let t0 := interfere others t in
  match next_id_of self t0 with
  | Raise e => (Raise e, t0, [EvFind t0])
  | Ok next_id =>
      let t1 := interfere (tail others) t0 in
      match table_insert next_id t1 with
      | Some t' =>
          (Ok next_id, t', [EvFind t0; EvInsert next_id true; EvLog (MsgLocked next_id)])
      | None => (Raise DuplicateKeyError, t1, [EvFind t0; EvInsert next_id false])
      end
  end.
Proof.
  unfold get_next_clientid; simpl.
  destruct (next_id_of self (interfere others t)) as [next_id|e]; simpl; [|done].
  destruct (table_insert next_id _); reflexivity.
Qed.

Lemma table_insert_free (id : Z) (t : table) :
  id ∉ t → table_insert id t = Some (t ++ [id]).
Proof. intros H. unfold table_insert. by rewrite decide_False. Qed.

Lemma table_insert_held (id : Z) (t : table) :
  id ∈ t → table_insert id t = None.
Proof. intros H. unfold table_insert. by rewrite decide_True. Qed.

Lemma run_get_next_clientid_alone oracle (self : mongoIBclientIDtracker)
    (t : table) :
  run oracle (get_next_clientid self) t =
  match next_id_of self t with
  | Raise e => (Raise e, t, [EvFind t])
  | Ok next_id =>
      match table_insert next_id t with
      | Some t' =>
          (Ok next_id, t', [EvFind t; EvInsert next_id true; EvLog (MsgLocked next_id)])
      | None => (Raise DuplicateKeyError, t, [EvFind t; EvInsert next_id false])
      end
  end.
Proof. unfold run. rewrite run_get_next_clientid. reflexivity. Qed.

(** With no other process at work the id that was just computed is free,
    so the insert is accepted. *)
Lemma get_next_clientid_empty oracle (offset : Z) (l : string) :
  run oracle (get_next_clientid (mk_tracker (VInt offset) l)) [] =
  (Ok offset, [offset],
   [EvFind []; EvInsert offset true; EvLog (MsgLocked offset)]).
Proof.
  rewrite run_get_next_clientid_alone, next_id_of_empty. reflexivity.
Qed.

Lemma get_next_clientid_from_offset oracle (offset hi : Z) (l : string)
    (held : table) :
  is_max hi held → offset ≤ hi + 1 →
  ∃ m, is_least m (candidate offset hi held) ∧
       run oracle (get_next_clientid (mk_tracker (VInt offset) l)) held =
       (Ok m, held ++ [m], [EvFind held; EvInsert m true; EvLog (MsgLocked m)]).
Proof.
  intros Hhi Hle.
  destruct (next_id_of_from_offset offset hi l held Hhi Hle) as (m & Hm & Hleast).
  exists m. split; [exact Hleast|].
  rewrite run_get_next_clientid_alone, Hm.
  rewrite table_insert_free; [reflexivity|]. by destruct Hleast as [[_ Hfree] _].
Qed.

(** Minimality: with [offset], [offset + 1] and [offset + 3] held, the
    next id is [offset + 2]. *)
Lemma get_next_clientid_minimality oracle (offset : Z) (l : string) :
  res (run oracle (get_next_clientid (mk_tracker (VInt offset) l))
         [offset; offset + 1; offset + 3]) = Ok (offset + 2).
Proof.
  assert (∀ y, y ∈ [offset; offset + 1; offset + 3]
               ↔ y = offset ∨ y = offset + 1 ∨ y = offset + 3) as Hheld.
  { intros y. rewrite !elem_of_cons, elem_of_nil. tauto. }
  assert (is_max (offset + 3) [offset; offset + 1; offset + 3]) as Hhi.
  { split; [apply Hheld; lia|]. intros y Hy. apply Hheld in Hy. lia. }
  destruct (get_next_clientid_from_offset oracle offset (offset + 3) l _ Hhi)
    as (m & [[Hrange Hfree] Hlb] & ->); [lia|].
  assert (candidate offset (offset + 3) [offset; offset + 1; offset + 3] (offset + 2))
    as Hc.
  { split; [lia|]. rewrite Hheld. lia. }
  specialize (Hlb _ Hc). rewrite Hheld in Hfree.
  unfold res; simpl. f_equal. lia.
Qed.

(** Offset floor: an empty table and offset 5 give 5. *)
Lemma get_next_clientid_offset_floor oracle (l : string) :
  res (run oracle (get_next_clientid (mk_tracker (VInt 5) l)) []) = Ok 5.
Proof. by rewrite get_next_clientid_empty. Qed.

(** C1.  [get_next_clientid] does not return an id on every call: with
    offset 100 and the ids 1 and 2 held, [range(100, 4)] is empty, [min]
    raises [ValueError], and nothing is inserted.  (Where the list is
    empty, or its largest id is at least [offset - 1], the call returns
    the least candidate and inserts it: [get_next_clientid_empty],
    [get_next_clientid_from_offset].) *)
Theorem get_next_clientid_offset_above_held :
  run no_failure (get_next_clientid (mk_tracker (VInt 100) "mongoIDTracker")) [1; 2]
  = (Raise ValueError, [1; 2], [EvFind [1; 2]]).
Proof. vm_compute. reflexivity. Qed.

(** C9.  [get_next_clientid] returns an id exactly when the list it reads
    is empty or its largest id is at least [offset - 1]; when the list is
    not empty and its largest id plus one is below the offset, the call
    raises [ValueError] (the [min] of an empty set) after its read and
    leaves the table as it was. *)
Theorem get_next_clientid_total_iff oracle (offset : Z) (l : string)
    (held : table) :
  (is_ok (res (run oracle (get_next_clientid (mk_tracker (VInt offset) l)) held)) = true
   ↔ held = [] ∨ ∃ hi, is_max hi held ∧ offset - 1 ≤ hi)
  ∧ (∀ hi, is_max hi held → hi + 1 < offset →
       (list_to_set (py_range offset (hi + 2)) : gset Z) = ∅ ∧
       run oracle (get_next_clientid (mk_tracker (VInt offset) l)) held
       = (Raise ValueError, held, [EvFind held])).
Proof.
  assert (∀ hi, is_max hi held → hi + 1 < offset →
            run oracle (get_next_clientid (mk_tracker (VInt offset) l)) held
            = (Raise ValueError, held, [EvFind held])) as Hraise.
  { intros hi Hhi Hlt. rewrite run_get_next_clientid_alone.
    by rewrite (next_id_of_below_offset offset hi l held Hhi Hlt). }
  split.
  - split.
    + intros Hok. destruct held as [|x held']; [by left|]. right.
      destruct (py_max_nonempty (x :: held')) as (hi & _ & Hhi); [done|].
      exists hi. split; [exact Hhi|].
      destruct (decide (offset - 1 ≤ hi)) as [|Hlt]; [done|].
      rewrite (Hraise hi Hhi) in Hok by lia. discriminate Hok.
    + intros [->|(hi & Hhi & Hle)].
      * by rewrite get_next_clientid_empty.
      * destruct (get_next_clientid_from_offset oracle offset hi l held Hhi)
          as (m & _ & ->); [lia | done].
  - intros hi Hhi Hlt. split; [|by apply (Hraise hi)].
    apply leibniz_equiv. apply elem_of_equiv_empty. intros x Hx.
    apply elem_of_list_to_set, elem_of_py_range in Hx. lia.
Qed.

(** The instance of the claim: 1 held, offset 5. *)
Lemma get_next_clientid_held_1_offset_5 :
  run no_failure (get_next_clientid (mk_tracker (VInt 5) "mongoIDTracker")) [1]
  = (Raise ValueError, [1], [EvFind [1]]).
Proof.
  destruct (get_next_clientid_total_iff no_failure 5 "mongoIDTracker" [1])
    as [_ Hraise].
  apply (Hraise 1).
  - split; [by left|]. intros y Hy. apply list_elem_of_singleton in Hy. lia.
  - lia.
Defined.

(** ** A requested id *)

(** The class binds [_is_clientid_used]; [return_valid_client_id] asks
    for [is_clientid_used]. *)
Lemma is_clientid_used_not_bound :
  bool_decide ("is_clientid_used"%string ∈ mongoIBclientIDtracker_names) = false.
Proof. reflexivity. Qed.

Lemma is_clientid_used_with_underscore_bound :
  bool_decide ("_is_clientid_used"%string ∈ mongoIBclientIDtracker_names) = true.
Proof. reflexivity. Qed.


Lemma run_return_valid_client_id_requested oracle (others : schedule)
    (self : mongoIBclientIDtracker) (requested : Z) (t : table) :
  run_with oracle others (return_valid_client_id self (Some requested)) t
  = (Raise AttributeError, t, []).
Proof. reflexivity. Qed.

(** With no id requested the call is [get_next_clientid]. *)
Lemma return_valid_client_id_none (self : mongoIBclientIDtracker) :
  return_valid_client_id self None = get_next_clientid self.
Proof. reflexivity. Qed.

(** C2.  A requested id that is not held is neither returned nor locked:
    the call raises [AttributeError] and the table is left as it was. *)
Theorem return_valid_client_id_free_request oracle
    (self : mongoIBclientIDtracker) (requested : Z) (t : table) :
  requested ∉ t →
  run oracle (return_valid_client_id self (Some requested)) t
  = (Raise AttributeError, t, []).
Proof. intros _. apply run_return_valid_client_id_requested. Qed.

Lemma return_valid_client_id_free_request_7 :
(7 ∉ ([] : table)) ∧
  (run no_failure
     (return_valid_client_id (mk_tracker (VInt 1) "mongoIDTracker") (Some 7)) []
   = (Raise AttributeError, [], [])).
Proof.
  assert (7 ∉ ([] : table)) as Hfree by apply not_elem_of_nil.
  split; [exact Hfree|].
  exact (return_valid_client_id_free_request no_failure
           (mk_tracker (VInt 1) "mongoIDTracker") 7 [] Hfree).
Defined.

(** C3.  A requested id that is held does not fall back to the next free
    id: the call raises [AttributeError]; the table, and with it the
    requested id, is left as it was. *)
Theorem return_valid_client_id_held_request oracle
    (self : mongoIBclientIDtracker) (requested : Z) (t : table) :
  requested ∈ t →
  run oracle (return_valid_client_id self (Some requested)) t
  = (Raise AttributeError, t, []).
Proof. intros _. apply run_return_valid_client_id_requested. Qed.

Lemma return_valid_client_id_held_request_7 :
  7 ∈ ([7] : table) ∧
  (run no_failure
     (return_valid_client_id (mk_tracker (VInt 1) "mongoIDTracker") (Some 7)) [7]
   = (Raise AttributeError, [7], [])).
Proof.
  assert (7 ∈ ([7] : table)) as Hheld by apply list_elem_of_here.
  split; [exact Hheld|].
  exact (return_valid_client_id_held_request no_failure
           (mk_tracker (VInt 1) "mongoIDTracker") 7 [7] Hheld).
Defined.

(** ** A lost race *)

(** Whatever the other processes do, one call reads the table once and
    attempts at most one insert. *)
Lemma get_next_clientid_one_read oracle (others : schedule)
    (self : mongoIBclientIDtracker) (t : table) :
  reads (trace (run_with oracle others (get_next_clientid self) t))
  = [interfere others t]
  ∧ (length (insert_attempts
               (trace (run_with oracle others (get_next_clientid self) t)))
     ≤ 1)%nat.
Proof.
  rewrite run_get_next_clientid. cbv zeta.
  destruct (next_id_of self (interfere others t)) as [next_id|e];
    [|split; [done | simpl; lia]].
  destruct (table_insert next_id _); split; simpl; done || lia.
Qed.

(** C6.  [get_next_clientid] reads the table once and attempts one insert.
    When another process has taken the id between the read and the insert,
    the insert is rejected, [DuplicateKeyError] reaches the caller, and the
    call ends there: no second read, no second insert, nothing logged. *)
Theorem get_next_clientid_no_retry oracle (others : schedule)
    (self : mongoIBclientIDtracker) (t : table) (next_id : Z) :
  next_id_of self (interfere others t) = Ok next_id →
  next_id ∈ interfere (tail others) (interfere others t) →
  run_with oracle others (get_next_clientid self) t
  = (Raise DuplicateKeyError,
     interfere (tail others) (interfere others t),
     [EvFind (interfere others t); EvInsert next_id false])
  ∧ run_with oracle others (return_valid_client_id self None) t
    = run_with oracle others (get_next_clientid self) t.
Proof.
  intros Hnext Htaken. split; [|reflexivity].
  rewrite run_get_next_clientid. cbv zeta. rewrite Hnext.
  by rewrite table_insert_held.
Qed.

(** Two processes with offset 1 on an empty table: ours reads, the other
    locks 1, ours tries to lock 1. *)
Lemma get_next_clientid_lost_race :
  run_with no_failure [id; λ t, t ++ [1]]
    (get_next_clientid (mk_tracker (VInt 1) "mongoIDTracker")) []
  = (Raise DuplicateKeyError, [1], [EvFind []; EvInsert 1 false]).
Proof.
  refine (proj1 (get_next_clientid_no_retry no_failure [id; λ t, t ++ [1]]
                   (mk_tracker (VInt 1) "mongoIDTracker") [] 1 _ _)).
  - reflexivity.
  - apply list_elem_of_here.
Defined.

(** ** Release *)

Lemma table_delete_absent (id : Z) (t : table) :
  id ∉ t → table_delete id t = t.
Proof.
  induction t as [|x t IH]; [done|]. intros Hnot. simpl.
  apply not_elem_of_cons in Hnot as [Hne Hnot].
  rewrite decide_False by congruence. by rewrite IH.
Qed.

Lemma table_delete_length (id : Z) (t : table) :
  id ∈ t → S (length (table_delete id t)) = length t.
Proof.
  induction t as [|x t IH]; intros Hin; [by apply elem_of_nil in Hin|].
  simpl. destruct (decide (x = id)) as [->|Hne]; [done|].
  apply elem_of_cons in Hin as [->|Hin]; [done|]. simpl. by rewrite IH.
Qed.

Lemma table_delete_others (id : Z) (t : table) :
  others_of id (table_delete id t) = others_of id t.
Proof.
  unfold others_of. induction t as [|x t IH]; [done|]. cbn [table_delete].
  destruct (decide (x = id)) as [->|Hne].
  - by rewrite filter_cons_False by (intros H; by apply H).
  - by rewrite !filter_cons_True, IH by done.
Qed.

Lemma elem_of_table_delete_ne (id id' : Z) (t : table) :
  id' ≠ id → id' ∈ table_delete id t ↔ id' ∈ t.
Proof.
  intros Hne.
  assert (∀ l, id' ∈ l ↔ id' ∈ others_of id l) as Hothers.
  { intros l. unfold others_of. rewrite list_elem_of_filter. tauto. }
  by rewrite (Hothers (table_delete id t)), table_delete_others, <- Hothers.
Qed.

Lemma table_delete_subseteq (id x : Z) (t : table) :
  x ∈ table_delete id t → x ∈ t.
Proof.
  induction t as [|y t IH]; [done|]. simpl.
  destruct (decide (y = id)) as [->|Hne]; [by right|].
  rewrite !elem_of_cons. intros [->|Hin]; [by left | right; by apply IH].
Qed.

(** Under the unique index the id is gone after the delete. *)
Lemma table_delete_unique (id : Z) (t : table) :
  NoDup t → id ∉ table_delete id t.
Proof.
  induction 1 as [|x t Hx Hnd IH]; simpl; [apply not_elem_of_nil|].
  destruct (decide (x = id)) as [->|Hne]; [done|].
  apply not_elem_of_cons. split; [congruence | exact IH].
Qed.

(** The unique index is kept by every operation on the table. *)
Lemma table_insert_unique (id : Z) (t t' : table) :
  NoDup t → table_insert id t = Some t' → NoDup t'.
Proof.
  unfold table_insert. intros Hunique.
  destruct (decide (id ∈ t)) as [|Hfree]; [discriminate|]. intros [= <-].
  apply NoDup_app. split; [exact Hunique|]. split; [|apply NoDup_singleton].
  intros x Hx Hid. apply list_elem_of_singleton in Hid. by subst.
Qed.

Lemma table_delete_keeps_unique (id : Z) (t : table) :
  NoDup t → NoDup (table_delete id t).
Proof.
  induction 1 as [|x t Hx Hnd IH]; simpl; [apply NoDup_nil_2|].
  destruct (decide (x = id)); [exact Hnd|].
  apply NoDup_cons. split; [|exact IH].
  intros Hin. apply Hx. by apply table_delete_subseteq in Hin.
Qed.

Lemma run_release_clientid oracle (self : mongoIBclientIDtracker)
    (clientid : Z) (t : table) :
  run oracle (release_clientid self clientid) t
  = (Ok (), table_delete clientid t,
     [EvDelete clientid; EvLog (MsgReleased clientid)]).
Proof. reflexivity. Qed.

(** C5.  [release_clientid] never raises.  It deletes one record of the
    id: none if the id is not held, in which case the table is unchanged
    (so [release(99)] leaves an empty table empty); the record, under the
    unique index.  The records of the other ids stay as they are. *)
Theorem release_clientid_spec oracle (self : mongoIBclientIDtracker)
    (clientid : Z) (t : table) :
  res (run oracle (release_clientid self clientid) t) = Ok ()
  ∧ (clientid ∉ t → tbl (run oracle (release_clientid self clientid) t) = t)
  ∧ (clientid ∈ t →
       S (length (tbl (run oracle (release_clientid self clientid) t))) = length t)
  ∧ (NoDup t → clientid ∉ tbl (run oracle (release_clientid self clientid) t))
  ∧ others_of clientid (tbl (run oracle (release_clientid self clientid) t))
    = others_of clientid t
  ∧ (∀ id, id ≠ clientid →
       id ∈ tbl (run oracle (release_clientid self clientid) t) ↔ id ∈ t)
  ∧ run oracle (release_clientid self 99) []
    = (Ok (), [], [EvDelete 99; EvLog (MsgReleased 99)]).
Proof.
  rewrite run_release_clientid. unfold res, tbl; simpl.
  split; [done|]. split; [apply table_delete_absent|].
  split; [apply table_delete_length|]. split; [apply table_delete_unique|].
  split; [apply table_delete_others|].
  split; [|done]. intros id Hne. by apply elem_of_table_delete_ne.
Qed.

(** ** Closing a connection *)

Lemma run_close_connection oracle (self : connectionIB) (t : table) :
  run oracle (close_connection self) t
  = (Ok (),
     table_delete (cfg_client (_ib_connection_config self)) t,
     [EvLog (MsgTerminating (_ib_connection_config self));
      EvExtern Disconnect (oracle Disconnect)]
     ++ match oracle Disconnect with
        | Some _ => [EvLog WarnDisconnectFailed]
        | None => []
        end
     ++ [EvDelete (cfg_client (_ib_connection_config self));
         EvLog (MsgReleased (cfg_client (_ib_connection_config self)))]).
Proof.
  unfold run, close_connection; simpl. destruct (oracle Disconnect); reflexivity.
Qed.

(** C4.  [close_connection] returns normally whether [disconnect] raised
    or not; a failure of [disconnect] is logged as a warning and goes no
    further; the client id of the session is released exactly once, after
    the disconnect attempt; and, the table holding at most one record per
    id, the id is not in the table afterwards. *)
Theorem close_connection_releases oracle (self : connectionIB) (t : table) :
  NoDup t →
  res (run oracle (close_connection self) t) = Ok ()
  ∧ released (trace (run oracle (close_connection self) t))
    = [cfg_client (_ib_connection_config self)]
  ∧ (cfg_client (_ib_connection_config self)
     ∉ tbl (run oracle (close_connection self) t))
  ∧ (∀ e, oracle Disconnect = Some e →
       EvLog WarnDisconnectFailed ∈ trace (run oracle (close_connection self) t))
  ∧ (∃ before,
       trace (run oracle (close_connection self) t)
       = EvLog (MsgTerminating (_ib_connection_config self))
         :: EvExtern Disconnect (oracle Disconnect)
         :: before
         ++ [EvDelete (cfg_client (_ib_connection_config self));
             EvLog (MsgReleased (cfg_client (_ib_connection_config self)))]).
Proof.
  intros Hunique. rewrite run_close_connection. unfold res, tbl, trace; simpl.
  split; [done|]. split; [by destruct (oracle Disconnect)|].
  split; [by apply table_delete_unique|]. split.
  - intros e ->. simpl. right; right; left.
  - by eexists.
Qed.

Lemma close_connection_releases_after_failure :
  res (run disconnect_fails
         (close_connection
            (mk_connection (mk_tracker (VInt 1) "connectionIB")
               (mk_config (VStr "127.0.0.1") (VInt 4001) 3)))
         [3; 4]) = Ok ()
  ∧ tbl (run disconnect_fails
           (close_connection
              (mk_connection (mk_tracker (VInt 1) "connectionIB")
                 (mk_config (VStr "127.0.0.1") (VInt 4001) 3)))
           [3; 4]) = [4].
Proof.
  assert (NoDup [3; 4]) as Hunique.
  { apply NoDup_cons. split; [|apply NoDup_singleton].
    intros H. apply list_elem_of_singleton in H. discriminate H. }
  destruct (close_connection_releases disconnect_fails
              (mk_connection (mk_tracker (VInt 1) "connectionIB")
                 (mk_config (VStr "127.0.0.1") (VInt 4001) 3))
              [3; 4] Hunique) as (Hres & _).
  split; [exact Hres | reflexivity].
Defined.

(** ** Resolution of the defaults *)

Lemma overwrite_with_arg_mapping (kwargs d : gmap string pyval)
    (arg_name : string) :
  overwrite_with_arg kwargs (YMapping d) arg_name
  = Ok (YMapping
          (match kwargs !! arg_name with
           | Some v => if decide (v = VNone) then d else <["ib_" +:+ arg_name := v]> d
           | None => d
           end)).
Proof.
  unfold overwrite_with_arg, kwargs_get.
  destruct (kwargs !! arg_name) as [v|]; simpl; [|done].
  by destruct (decide (v = VNone)).
Qed.

Lemma ib_defaults_mapping (kwargs d : gmap string pyval) :
  ib_defaults (Loaded (YMapping d)) kwargs
  = Ok (by_precedence (kwargs !! "ipaddress") (d !! "ib_ipaddress")
          (VStr DEFAULT_IB_IPADDRESS),
        by_precedence (kwargs !! "port") (d !! "ib_port") (VInt DEFAULT_IB_PORT),
        by_precedence (kwargs !! "idoffset") (d !! "ib_idoffset")
          (VInt DEFAULT_IB_IDOFFSET)).
Proof.
  unfold ib_defaults. cbn [overwrite_with_args].
  rewrite overwrite_with_arg_mapping; cbn [mbind result_bind].
  rewrite overwrite_with_arg_mapping; cbn [mbind result_bind].
  rewrite overwrite_with_arg_mapping; cbn [mbind result_bind py_get].
  unfold by_precedence.
  destruct (kwargs !! "ipaddress") as [v1|]; [destruct (decide (v1 = VNone))|];
    (destruct (kwargs !! "port") as [v2|]; [destruct (decide (v2 = VNone))|]);
    (destruct (kwargs !! "idoffset") as [v3|]; [destruct (decide (v3 = VNone))|]);
    cbn [String.append]; by simplify_map_eq.
Qed.

Lemma ib_defaults_load_fails (kwargs : gmap string pyval) :
  ib_defaults LoadFails kwargs = ib_defaults (Loaded (YMapping ∅)) kwargs.
Proof. reflexivity. Qed.

(** C7.  [ib_defaults] resolves each of the three fields on its own: a
    passed argument that is not [None] wins over the entry of the config
    file ([ib_ipaddress], [ib_port], [ib_idoffset]), which wins over the
    default (['127.0.0.1'], [4001], [1]).  A config file that cannot be
    opened or parsed is an empty configuration, and the call returns. *)
Theorem ib_defaults_precedence (kwargs d : gmap string pyval) :
  ib_defaults (Loaded (YMapping d)) kwargs
  = Ok (by_precedence (kwargs !! "ipaddress") (d !! "ib_ipaddress")
          (VStr "127.0.0.1"),
        by_precedence (kwargs !! "port") (d !! "ib_port") (VInt 4001),
        by_precedence (kwargs !! "idoffset") (d !! "ib_idoffset") (VInt 1))
  ∧ ib_defaults LoadFails kwargs = ib_defaults (Loaded (YMapping ∅)) kwargs
  ∧ ib_defaults LoadFails kwargs
    = Ok (by_precedence (kwargs !! "ipaddress") None (VStr "127.0.0.1"),
          by_precedence (kwargs !! "port") None (VInt 4001),
          by_precedence (kwargs !! "idoffset") None (VInt 1)).
Proof.
  split; [apply ib_defaults_mapping|]. split; [apply ib_defaults_load_fails|].
  rewrite ib_defaults_load_fails, ib_defaults_mapping. by rewrite !lookup_empty.
Qed.

Example ib_defaults_mixed :
  ib_defaults
    (Loaded (YMapping {[ "ib_port"%string := VInt 7496;
                         "ib_ipaddress"%string := VStr "192.168.0.2" ]}))
    {[ "ipaddress"%string := VStr "10.0.0.1"; "port"%string := VNone ]}
  = Ok (VStr "10.0.0.1", VInt 7496, VInt 1).
Proof. vm_compute. reflexivity. Qed.

(** A file that loads, but not as a mapping (an empty file loads as
    [None]), is not an empty configuration: the call raises. *)
Example ib_defaults_not_mapping :
  ib_defaults (Loaded YNotMapping) ∅ = Raise AttributeError
  ∧ ib_defaults (Loaded YNotMapping) {[ "port"%string := VInt 4002 ]}
    = Raise TypeError.
Proof. split; vm_compute; reflexivity. Qed.

(** ** The offset of a connection *)

Lemma overwrite_with_arg_not_mapping (kwargs : gmap string pyval)
    (arg_name : string) :
  overwrite_with_arg kwargs YNotMapping arg_name = Ok YNotMapping
  ∨ overwrite_with_arg kwargs YNotMapping arg_name = Raise TypeError.
Proof.
  unfold overwrite_with_arg. cbv zeta.
  destruct (decide (kwargs_get kwargs arg_name = VNone)); [by left | by right].
Qed.

Lemma ib_defaults_not_mapping_raises (kwargs : gmap string pyval) :
  value_of (ib_defaults (Loaded YNotMapping) kwargs) = None.
Proof.
  unfold ib_defaults. cbn [overwrite_with_args].
  destruct (overwrite_with_arg_not_mapping kwargs "ipaddress") as [-> | ->];
    cbn [mbind result_bind]; [|done].
  destruct (overwrite_with_arg_not_mapping kwargs "port") as [-> | ->];
    cbn [mbind result_bind]; [|done].
  destruct (overwrite_with_arg_not_mapping kwargs "idoffset") as [-> | ->];
    cbn [mbind result_bind]; done.
Qed.

Lemma tracker_init_idoffset (d : gmap string pyval) (idoffset : pyval)
    (l : string) :
  idoffset = default (VInt DEFAULT_IB_IDOFFSET) (d !! "ib_idoffset") →
  mongoIBclientIDtracker_init (Loaded (YMapping d)) idoffset l
  = Ok (mk_tracker idoffset l).
Proof.
  intros Hid. unfold mongoIBclientIDtracker_init.
  destruct (decide (idoffset = VNone)) as [Hnone|_]; [|done].
  rewrite ib_defaults_mapping. cbn [mbind result_bind].
  rewrite lookup_empty. unfold by_precedence. by rewrite <- Hid, Hnone.
Qed.

Lemma connectionIB_tracker_idoffset (config_file : config_source)
    (client : option Z) (ipaddress port : pyval) (l : string) :
  idoffset_used (connectionIB_tracker config_file client ipaddress port l)
  = configured_idoffset config_file.
Proof.
  assert (∀ d,
    idoffset_used (connectionIB_tracker (Loaded (YMapping d)) client ipaddress port l)
    = Some (default (VInt DEFAULT_IB_IDOFFSET) (d !! "ib_idoffset"))) as Hmapping.
  { intros d. unfold connectionIB_tracker. rewrite ib_defaults_mapping.
    cbn [mbind result_bind].
    assert ((<["ipaddress"%string := ipaddress]> (<["port"%string := port]> ∅)
               : gmap string pyval) !! "idoffset"%string = None) as ->
      by by simplify_map_eq.
    cbn [by_precedence].
    by rewrite (tracker_init_idoffset d _ l eq_refl). }
  destruct config_file as [|[d|]].
  - transitivity
      (idoffset_used
         (connectionIB_tracker (Loaded (YMapping ∅)) client ipaddress port l));
      [reflexivity|].
    rewrite Hmapping. by rewrite lookup_empty.
  - apply Hmapping.
  - unfold connectionIB_tracker, idoffset_used.
    pose proof (ib_defaults_not_mapping_raises
      (<["ipaddress"%string := ipaddress]> (<["port"%string := port]> ∅))) as Hraise.
    by destruct (ib_defaults _ _).
Qed.

(** C10.  The offset of the tracker that [connectionIB.__init__] builds
    is the same for any two constructions over one config file, whatever
    the client id, address, port and logger passed: it is the [ib_idoffset]
    of the file, or the default 1. *)
Theorem connectionIB_idoffset_independent (config_file : config_source)
    (client1 client2 : option Z) (ipaddress1 ipaddress2 port1 port2 : pyval)
    (log1 log2 : string) :
  idoffset_used (connectionIB_tracker config_file client1 ipaddress1 port1 log1)
  = idoffset_used (connectionIB_tracker config_file client2 ipaddress2 port2 log2)
  ∧ idoffset_used (connectionIB_tracker config_file client1 ipaddress1 port1 log1)
    = configured_idoffset config_file.
Proof. by rewrite !connectionIB_tracker_idoffset. Qed.

(** ** Sequencing *)

Lemma then_run_emit {A B} (ev : event) (first : outcome A)
    (rest : A → nat → table → outcome B) :
  then_run (emit ev first) rest
  = emit ev (then_run first
               (λ a n, rest a (if is_table_op ev then S n else n))).
Proof.
  destruct first as [[[a|e] t] tr]; simpl; [|done].
  destruct (is_table_op ev); by destruct (rest a _ t) as [[r t'] tr'].
Qed.

Lemma then_run_ext {A B} (first : outcome A)
    (rest rest' : A → nat → table → outcome B) :
  (∀ a n t, rest a n t = rest' a n t) →
  then_run first rest = then_run first rest'.
Proof.
  intros Hext. destruct first as [[[a|e] t] tr]; simpl; [|done].
  by rewrite Hext.
Qed.

Lemma drop_S_tail {X} (n : nat) (l : list X) : drop (S n) l = drop n (tail l).
Proof. destruct l; [by destruct n | done]. Qed.

Lemma run_with_bind {A B} oracle (p : prog A) (f : A → prog B) :
  ∀ (others : schedule) (t : table),
    run_with oracle others (bind p f) t
    = then_run (run_with oracle others p t)
        (λ a n, run_with oracle (drop n others) (f a)).
Proof.
  assert (∀ (others : schedule) first,
    then_run first (λ a n, run_with oracle (drop n (tail others)) (f a))
    = then_run first (λ a n, run_with oracle (drop (S n) others) (f a)))
    as Hstep.
  { intros others first. apply then_run_ext. intros a n t.
    by rewrite drop_S_tail. }
  induction p as [a|e|k IH|id k IH|id k IH|k IH|m k IH|c k IH];
    intros others t; cbn [bind run_with].
  - cbn [then_run table_ops]. rewrite drop_0.
    by destruct (run_with oracle others (f a) t) as [[r t'] tr'].
  - done.
  - by rewrite IH, then_run_emit, Hstep.
  - destruct (table_insert id (interfere others t));
      by rewrite IH, then_run_emit, Hstep.
  - by rewrite IH, then_run_emit, Hstep.
  - by rewrite IH, then_run_emit, Hstep.
  - by rewrite IH, then_run_emit.
  - by rewrite IH, then_run_emit.
Qed.

(** ** Construction of a connection *)

Lemma reqID_namespace_disjoint (client1 client2 reqId : Z) :
  client1 ≠ client2 →
  reqID_namespace (client1 * 1000) reqId = true →
  reqID_namespace (client2 * 1000) reqId = false.
Proof.
  unfold reqID_namespace. intros Hne Hin.
  apply bool_decide_eq_true in Hin. apply bool_decide_eq_false. lia.
Qed.

Lemma run_connectionIB_init_ok oracle (others : schedule)
    (config_file : config_source) (client : option Z) (ipaddress port : pyval)
    (l : string) (t : table) (conn : connectionIB) :
  res (run_with oracle others
         (connectionIB_init config_file client ipaddress port l) t) = Ok conn →
  client = None
  ∧ ∃ snapshot,
      trace (run_with oracle others
               (connectionIB_init config_file client ipaddress port l) t)
      = EvFind snapshot
        :: init_events (cfg_ipaddress (_ib_connection_config conn))
             (cfg_port (_ib_connection_config conn))
             (cfg_client (_ib_connection_config conn)).
Proof.
  unfold connectionIB_init.
  destruct (connectionIB_tracker config_file client ipaddress port l)
    as [[[ipaddress' port'] tracker]|e]; [|discriminate].
  cbn [lift mbind prog_bind bind].
  destruct client as [requested|]; [discriminate|].
  cbn [return_valid_client_id].
  unfold mbind, prog_bind. rewrite run_with_bind, run_get_next_clientid. cbv zeta.
  destruct (next_id_of tracker (interfere others t)) as [next_id|e]; [|discriminate].
  destruct (table_insert next_id _) as [t'|]; [|discriminate].
  cbn [then_run table_ops is_table_op]. unfold log, extern, res, trace.
  cbn [bind run_with emit].
  destruct (oracle IbServerInit); simpl; [discriminate|].
  destruct (oracle (IbClientInit (next_id * 1000))); simpl; [discriminate|].
  destruct (oracle BrokerInitError); simpl; [discriminate|].
  destruct (oracle (Connect ipaddress' port' next_id)); simpl; [discriminate|].
  destruct (oracle ThreadStart); simpl; [discriminate|].
  cbn. intros [= <-]. split; [done|]. by eexists.
Qed.

(** C8.  A connection that was constructed locked its client id in the
    table and handed the IB client the offset [client * 1000], and no
    other; the thousand request identifiers from that offset on are
    shared with no session of another client id. *)
Theorem connectionIB_reqIDoffset oracle (others : schedule)
    (config_file : config_source) (client : option Z) (ipaddress port : pyval)
    (l : string) (t : table) (conn : connectionIB) :
  res (run_with oracle others
         (connectionIB_init config_file client ipaddress port l) t) = Ok conn →
  EvInsert (cfg_client (_ib_connection_config conn)) true
    ∈ trace (run_with oracle others
               (connectionIB_init config_file client ipaddress port l) t)
  ∧ EvExtern (IbClientInit (cfg_client (_ib_connection_config conn) * 1000)) None
      ∈ trace (run_with oracle others
                 (connectionIB_init config_file client ipaddress port l) t)
  ∧ (∀ reqIDoffset raised,
       EvExtern (IbClientInit reqIDoffset) raised
         ∈ trace (run_with oracle others
                    (connectionIB_init config_file client ipaddress port l) t) →
       reqIDoffset = cfg_client (_ib_connection_config conn) * 1000)
  ∧ (∀ other reqId,
       other ≠ cfg_client (_ib_connection_config conn) →
       reqID_namespace (cfg_client (_ib_connection_config conn) * 1000) reqId = true →
       reqID_namespace (other * 1000) reqId = false).
Proof.
  intros Hok.
  destruct (run_connectionIB_init_ok _ _ _ _ _ _ _ _ _ Hok) as (_ & snapshot & ->).
  unfold init_events. split; [|split; [|split]].
  - right; left.
  - do 5 right. left.
  - intros reqIDoffset raised Hin.
    rewrite !elem_of_cons, elem_of_nil in Hin.
    destruct Hin as [Hin|[Hin|[Hin|[Hin|[Hin|[Hin|[Hin|[Hin|[Hin|[]]]]]]]]]];
      try discriminate Hin.
    by injection Hin.
  - intros other reqId Hne. by apply reqID_namespace_disjoint.
Qed.

(** No config file, no argument, an empty table: client id 1, offset
    1000. *)
Lemma connectionIB_first_session :
  EvExtern (IbClientInit 1000) None
    ∈ trace (run_with no_failure []
               (connectionIB_init LoadFails None VNone VNone "connectionIB") []).
Proof.
  assert (res (run_with no_failure []
                 (connectionIB_init LoadFails None VNone VNone "connectionIB") [])
          = Ok (mk_connection (mk_tracker (VInt 1) "connectionIB")
                  (mk_config (VStr "127.0.0.1") (VInt 4001) 1))) as Hok.
  { vm_compute. reflexivity. }
  exact (proj1 (proj2 (connectionIB_reqIDoffset no_failure []
                         LoadFails None VNone VNone "connectionIB" [] _ Hok))).
Defined.

(** * Further properties *)

(** ** Runs of one process *)

Lemma run_bind {A B} oracle (p : prog A) (f : A → prog B) (t : table) :
  run oracle (bind p f) t
  = then_run (run oracle p t) (λ a _, run oracle (f a)).
Proof.
  unfold run. rewrite run_with_bind. apply then_run_ext.
  intros a n t'. by rewrite drop_nil.
Qed.

Lemma py_min_ok (s : gset Z) (m : Z) :
  py_min s = Ok m → is_least m (λ x, x ∈ s).
Proof.
  intros Hmin. destruct (decide (s = ∅)) as [Hempty|Hne].
  - rewrite (py_min_empty s Hempty) in Hmin. discriminate Hmin.
  - destruct (py_min_nonempty s Hne) as (m' & Hm' & Hleast).
    rewrite Hm' in Hmin. by injection Hmin as <-.
Qed.

(** Whatever id [get_next_clientid] settles on is the least free id from
    the offset upwards. *)
Lemma next_id_of_ok (offset m : Z) (l : string) (held : list Z) :
  next_id_of (mk_tracker (VInt offset) l) held = Ok m →
  is_least m (free_from offset held).
Proof.
  destruct held as [|x held'].
  - rewrite next_id_of_empty. intros [= <-]. split.
    + split; [lia | apply not_elem_of_nil].
    + by intros y [Hy _].
  - destruct (next_id_of_cons offset l (x :: held')) as (hi & Hhi & ->); [done|].
    intros Hmin. apply py_min_ok in Hmin as [Hin Hlb].
    apply (least_candidate_least_free offset hi m (x :: held') Hhi). split.
    + by apply elem_of_missing_values.
    + intros y Hy. apply Hlb. by apply elem_of_missing_values.
Qed.

Lemma allocatable_next_id (offset : Z) (l : string) (held : list Z) :
  allocatable offset held →
  ∃ m, next_id_of (mk_tracker (VInt offset) l) held = Ok m.
Proof.
  intros [->|(hi & Hhi & Hle)].
  - exists offset. apply next_id_of_empty.
  - destruct (next_id_of_from_offset offset hi l held Hhi) as (m & Hm & _); [lia|].
    by exists m.
Qed.

Lemma run_get_next_clientid_allocatable oracle (offset : Z) (l : string)
    (held : table) :
  allocatable offset held →
  ∃ m, run oracle (get_next_clientid (mk_tracker (VInt offset) l)) held
       = (Ok m, held ++ [m],
          [EvFind held; EvInsert m true; EvLog (MsgLocked m)])
       ∧ is_least m (free_from offset held).
Proof.
  intros Hheld.
  destruct (allocatable_next_id offset l held Hheld) as (m & Hm).
  pose proof (next_id_of_ok offset m l held Hm) as Hleast.
  exists m. split; [|exact Hleast].
  rewrite run_get_next_clientid_alone, Hm.
  rewrite table_insert_free; [done|]. by destruct Hleast as [[_ Hfree] _].
Qed.

(** X1.  On a table that is empty or whose largest id is at least
    [offset - 1], [get_next_clientid] returns the smallest id from the
    offset upwards that is not held, appends it to the table and leaves
    every other record where it was. *)
Theorem get_next_clientid_least_free oracle (offset : Z) (l : string)
    (held : table) :
  allocatable offset held →
  ∃ m, run oracle (get_next_clientid (mk_tracker (VInt offset) l)) held
       = (Ok m, held ++ [m],
          [EvFind held; EvInsert m true; EvLog (MsgLocked m)])
       ∧ is_least m (free_from offset held).
Proof. apply run_get_next_clientid_allocatable. Qed.

Lemma get_next_clientid_least_free_gap :
  ∃ m, run no_failure (get_next_clientid (mk_tracker (VInt 2) "mongoIDTracker"))
         [1; 2; 3; 5]
       = (Ok m, [1; 2; 3; 5] ++ [m],
          [EvFind [1; 2; 3; 5]; EvInsert m true; EvLog (MsgLocked m)])
       ∧ is_least m (free_from 2 [1; 2; 3; 5]).
Proof.
  apply (get_next_clientid_least_free no_failure 2 "mongoIDTracker" [1; 2; 3; 5]).
  right. exists 5. split; [|lia]. split.
  - do 3 right. left.
  - intros y Hy. rewrite !elem_of_cons, elem_of_nil in Hy. lia.
Defined.

(** X2.  Whatever the other processes do between the operations of a
    call, an id that [get_next_clientid] returns is at least the offset,
    was in neither the table the call read nor the table it inserted
    into, and is the one record the call added; a table with one record
    per id stays so. *)
Theorem get_next_clientid_returns_fresh oracle (others : schedule)
    (offset : Z) (l : string) (t : table) (m : Z) :
  res (run_with oracle others
         (get_next_clientid (mk_tracker (VInt offset) l)) t) = Ok m →
  offset ≤ m
  ∧ (m ∉ interfere others t)
  ∧ (m ∉ interfere (tail others) (interfere others t))
  ∧ tbl (run_with oracle others
           (get_next_clientid (mk_tracker (VInt offset) l)) t)
    = interfere (tail others) (interfere others t) ++ [m]
  ∧ (NoDup (interfere (tail others) (interfere others t)) →
     NoDup (tbl (run_with oracle others
                   (get_next_clientid (mk_tracker (VInt offset) l)) t))).
Proof.
  rewrite run_get_next_clientid. cbv zeta.
  destruct (next_id_of _ (interfere others t)) as [next_id|e] eqn:Hnext;
    [|discriminate].
  destruct (table_insert next_id _) as [t'|] eqn:Hins; [|discriminate].
  unfold res, tbl; simpl. intros [= ->].
  apply next_id_of_ok in Hnext as [[Hle Hfree] _].
  assert (m ∉ interfere (tail others) (interfere others t)) as Hfree'.
  { intros Hin. by rewrite (table_insert_held _ _ Hin) in Hins. }
  rewrite (table_insert_free _ _ Hfree') in Hins. injection Hins as <-.
  repeat split; try done.
  intros Hunique. apply (table_insert_unique m _ _ Hunique).
  by apply table_insert_free.
Qed.

(** Another process locks 4 after our read of [1; 2]; we lock 3. *)
Lemma get_next_clientid_returns_fresh_interleaved :
  tbl (run_with no_failure [id; λ t, t ++ [4]]
         (get_next_clientid (mk_tracker (VInt 1) "mongoIDTracker")) [1; 2])
  = [1; 2; 4; 3].
Proof.
  assert (res (run_with no_failure [id; λ t, t ++ [4]]
                 (get_next_clientid (mk_tracker (VInt 1) "mongoIDTracker")) [1; 2])
          = Ok 3) as Hok by (vm_compute; reflexivity).
  exact (proj1 (proj2 (proj2 (proj2
           (get_next_clientid_returns_fresh no_failure [id; λ t, t ++ [4]]
              1 "mongoIDTracker" [1; 2] 3 Hok))))).
Defined.

(** ** The order of the documents *)

Lemma py_max_same_ids (l l' : list Z) :
  (∀ x, x ∈ l ↔ x ∈ l') → py_max l = py_max l'.
Proof.
  intros Hsame. destruct l as [|x l0], l' as [|x' l0'].
  - done.
  - exfalso. apply (not_elem_of_nil x'). apply Hsame. left.
  - exfalso. apply (not_elem_of_nil x). apply Hsame. left.
  - destruct (py_max_nonempty (x :: l0)) as (hi & -> & Hhi); [done|].
    destruct (py_max_nonempty (x' :: l0')) as (hi' & -> & Hhi'); [done|].
    f_equal. apply (is_max_unique hi hi' (x :: l0) Hhi).
    destruct Hhi' as [Hin Hub]. split; [by apply Hsame|].
    intros y Hy. apply Hub. by apply Hsame.
Qed.

Lemma next_id_of_same_ids (self : mongoIBclientIDtracker) (l l' : list Z) :
  (∀ x, x ∈ l ↔ x ∈ l') → next_id_of self l = next_id_of self l'.
Proof.
  intros Hsame. unfold next_id_of.
  rewrite (py_max_same_ids l l' Hsame).
  assert ((list_to_set l : gset Z) = list_to_set l') as ->.
  { apply leibniz_equiv. intros x. by rewrite !elem_of_list_to_set. }
  destruct l as [|x l0], l' as [|x' l0']; try done.
  - exfalso. apply (not_elem_of_nil x'). apply Hsame. left.
  - exfalso. apply (not_elem_of_nil x). apply Hsame. left.
Qed.

(** X3.  The answer of [get_next_clientid] does not depend on the order
    in which [find()] yields the documents, nor on how often an id
    occurs: on two tables that hold the same ids the call returns the
    same id, or raises the same exception. *)
Theorem get_next_clientid_order_independent oracle
    (self : mongoIBclientIDtracker) (t t' : table) :
  (∀ x, x ∈ t ↔ x ∈ t') →
  res (run oracle (get_next_clientid self) t)
  = res (run oracle (get_next_clientid self) t').
Proof.
  intros Hsame. rewrite !run_get_next_clientid_alone.
  rewrite (next_id_of_same_ids self t t' Hsame).
  destruct (next_id_of self t') as [next_id|e]; [|done].
  unfold table_insert.
  destruct (decide (next_id ∈ t)) as [Hin|Hout];
    destruct (decide (next_id ∈ t')) as [Hin'|Hout']; try done.
  - exfalso. apply Hout'. by apply Hsame.
  - exfalso. apply Hout. by apply Hsame.
Qed.

Lemma get_next_clientid_order_independent_example :
  res (run no_failure (get_next_clientid (mk_tracker (VInt 1) "mongoIDTracker"))
         [1; 2; 4])
  = res (run no_failure (get_next_clientid (mk_tracker (VInt 1) "mongoIDTracker"))
           [4; 1; 2; 1]).
Proof.
  apply (get_next_clientid_order_independent no_failure
           (mk_tracker (VInt 1) "mongoIDTracker") [1; 2; 4] [4; 1; 2; 1]).
  intros x. rewrite !elem_of_cons, !elem_of_nil. tauto.
Defined.

(** ** Calls in a row *)

Lemma is_max_elem (hi : Z) (held : list Z) : is_max hi held → hi ∈ held.
Proof. by intros [Hin _]. Qed.

Lemma allocatable_app (offset m : Z) (held : list Z) :
  allocatable offset held → offset ≤ m → allocatable offset (held ++ [m]).
Proof.
  intros Hheld Hm. right.
  destruct (py_max_nonempty (held ++ [m])) as (hi & _ & Hhi).
  { by destruct held. }
  exists hi. split; [exact Hhi|].
  destruct Hhi as [_ Hub]. specialize (Hub m).
  assert (m ≤ hi) by (apply Hub; apply elem_of_app; right; left). lia.
Qed.

Lemma run_allocate_many_succ oracle (self : mongoIBclientIDtracker)
    (n : nat) (t : table) :
  run oracle (allocate_many self (S n)) t
  = then_run (run oracle (get_next_clientid self) t)
      (λ next_id _ t',
         then_run (run oracle (allocate_many self n) t')
           (λ more _ t'', (Ok (next_id :: more), t'', []))).
Proof.
  cbn [allocate_many]. unfold mbind, prog_bind. rewrite run_bind.
  apply then_run_ext. intros next_id _ t'. by rewrite run_bind.
Qed.

Lemma run_allocate_many oracle (offset : Z) (l : string) (n : nat) :
  ∀ t : table,
    allocatable offset t →
    ∃ ms,
      res (run oracle (allocate_many (mk_tracker (VInt offset) l) n) t) = Ok ms
      ∧ tbl (run oracle (allocate_many (mk_tracker (VInt offset) l) n) t) = t ++ ms
      ∧ length ms = n
      ∧ NoDup ms
      ∧ ∀ m, m ∈ ms → free_from offset t m.
Proof.
  induction n as [|n IH]; intros t Ht.
  - exists []. unfold res, tbl; simpl. rewrite app_nil_r.
    split; [done|]. split; [done|]. split; [done|].
    split; [apply NoDup_nil_2|].
    intros m Hm. by apply elem_of_nil in Hm.
  - destruct (run_get_next_clientid_allocatable oracle offset l t Ht)
      as (m & Hrun & [[Hle Hfree] _]).
    destruct (IH (t ++ [m])) as (ms & Hres & Htbl & Hlen & Hnd & Hms).
    { by apply allocatable_app. }
    exists (m :: ms). rewrite run_allocate_many_succ, Hrun. cbn [then_run].
    destruct (run oracle (allocate_many _ n) (t ++ [m])) as [[r t''] tr'].
    unfold res, tbl in *; simpl in *. subst r t''. simpl.
    split; [done|]. split; [by rewrite <- app_assoc|]. split; [by rewrite Hlen|].
    split.
    + apply NoDup_cons. split; [|exact Hnd].
      intros Hin. destruct (Hms m Hin) as [_ Hout].
      apply Hout. apply elem_of_app. right. left.
    + intros x Hx. apply elem_of_cons in Hx as [->|Hx]; [by split|].
      destruct (Hms x Hx) as [Hx1 Hx2]. split; [exact Hx1|].
      intros Hin. apply Hx2. apply elem_of_app. by left.
Qed.

(** X4.  [n] calls of [get_next_clientid] in a row, with no release in
    between, on a table that is empty or whose largest id is at least
    [offset - 1], all return: [n] ids that are pairwise distinct, none of
    them held before, none below the offset, appended to the table in the
    order of the calls. *)
Theorem allocate_many_distinct oracle (offset : Z) (l : string) (n : nat)
    (t : table) :
  allocatable offset t →
  ∃ ms,
    res (run oracle (allocate_many (mk_tracker (VInt offset) l) n) t) = Ok ms
    ∧ tbl (run oracle (allocate_many (mk_tracker (VInt offset) l) n) t) = t ++ ms
    ∧ length ms = n
    ∧ NoDup ms
    ∧ ∀ m, m ∈ ms → free_from offset t m.
Proof. intros Ht. by apply run_allocate_many. Qed.

Lemma allocate_many_distinct_example :
  ∃ ms,
    res (run no_failure
           (allocate_many (mk_tracker (VInt 1) "mongoIDTracker") 3) [2; 5]) = Ok ms
    ∧ tbl (run no_failure
             (allocate_many (mk_tracker (VInt 1) "mongoIDTracker") 3) [2; 5])
      = [2; 5] ++ ms
    ∧ length ms = 3%nat
    ∧ NoDup ms
    ∧ ∀ m, m ∈ ms → free_from 1 [2; 5] m.
Proof.
  apply (allocate_many_distinct no_failure 1 "mongoIDTracker" 3 [2; 5]).
  right. exists 5. split; [|lia]. split.
  - right; left.
  - intros y Hy. rewrite !elem_of_cons, elem_of_nil in Hy. lia.
Defined.

Lemma allocatable_seqZ (offset : Z) (k : nat) :
  allocatable offset (seqZ offset (Z.of_nat k)).
Proof.
  destruct k as [|k]; [by left|]. right.
  exists (offset + Z.of_nat k). split; [|lia]. split.
  - apply elem_of_seqZ. lia.
  - intros y Hy. apply elem_of_seqZ in Hy. lia.
Qed.

Lemma least_free_seqZ (offset m : Z) (k : nat) :
  is_least m (free_from offset (seqZ offset (Z.of_nat k))) →
  m = offset + Z.of_nat k.
Proof.
  intros Hm. apply (is_least_unique _ _ _ Hm). split.
  - split; [lia|]. rewrite elem_of_seqZ. lia.
  - intros y [Hy Hfree]. rewrite elem_of_seqZ in Hfree. lia.
Qed.

Lemma run_allocate_many_seqZ oracle (offset : Z) (l : string) (n : nat) :
  ∀ k : nat,
    res (run oracle (allocate_many (mk_tracker (VInt offset) l) n)
           (seqZ offset (Z.of_nat k)))
    = Ok (seqZ (offset + Z.of_nat k) (Z.of_nat n))
    ∧ tbl (run oracle (allocate_many (mk_tracker (VInt offset) l) n)
             (seqZ offset (Z.of_nat k)))
      = seqZ offset (Z.of_nat (k + n)).
Proof.
  induction n as [|n IH]; intros k.
  - unfold res, tbl; simpl. by rewrite Nat.add_0_r.
  - destruct (run_get_next_clientid_allocatable oracle offset l _
                (allocatable_seqZ offset k)) as (m & Hrun & Hleast).
    apply least_free_seqZ in Hleast as ->.
    rewrite <- seqZ_S in Hrun. destruct (IH (S k)) as [Hres Htbl].
    rewrite run_allocate_many_succ, Hrun. cbn [then_run].
    destruct (run oracle (allocate_many _ n) (seqZ offset (Z.of_nat (S k))))
      as [[r t''] tr'].
    unfold res, tbl in *; simpl in *. subst r t''. simpl. split.
    + f_equal. rewrite (seqZ_cons _ (Z.of_nat (S n))) by lia.
      f_equal. f_equal; lia.
    + f_equal. lia.
Qed.

(** X5.  On an empty table, [n] calls of [get_next_clientid] in a row
    return [offset], [offset + 1], ..., [offset + n - 1] in this order,
    and the table then holds exactly these ids. *)
Theorem allocate_many_from_empty oracle (offset : Z) (l : string) (n : nat) :
  res (run oracle (allocate_many (mk_tracker (VInt offset) l) n) [])
  = Ok (seqZ offset (Z.of_nat n))
  ∧ tbl (run oracle (allocate_many (mk_tracker (VInt offset) l) n) [])
    = seqZ offset (Z.of_nat n).
Proof.
  destruct (run_allocate_many_seqZ oracle offset l n 0) as [Hres Htbl].
  change (seqZ offset (Z.of_nat 0)) with ([] : list Z) in *.
  rewrite Hres, Htbl. split; [f_equal; f_equal; lia | done].
Qed.

(** ** Release and reuse *)

Lemma table_delete_last (id : Z) (t : table) :
  id ∉ t → table_delete id (t ++ [id]) = t.
Proof.
  induction t as [|x t IH]; intros Hfree; simpl.
  - by rewrite decide_True.
  - apply not_elem_of_cons in Hfree as [Hne Hfree].
    rewrite decide_False by congruence. by rewrite IH.
Qed.

Lemma run_then {A} oracle (p : prog ()) (q : prog A) (t : table) :
  res (run oracle p t) = Ok () →
  res (run oracle (bind p (λ _, q)) t) = res (run oracle q (tbl (run oracle p t)))
  ∧ tbl (run oracle (bind p (λ _, q)) t) = tbl (run oracle q (tbl (run oracle p t))).
Proof.
  rewrite run_bind. destruct (run oracle p t) as [[[[]|e] t'] tr]; [|discriminate].
  intros _. unfold res, tbl; simpl.
  by destruct (run oracle q t') as [[r t''] tr'].
Qed.

(** X6.  Lowest free wins.  On a table with one record per id and no id
    below the offset, releasing a held id [x] such that every id from the
    offset up to [x - 1] is held makes the next [get_next_clientid]
    return [x] again. *)
Theorem release_then_next_is_released oracle (offset : Z) (l : string)
    (t : table) (x : Z) :
  NoDup t →
  (∀ y, y ∈ t → offset ≤ y) →
  x ∈ t →
  (∀ y, offset ≤ y < x → y ∈ t) →
  res (run oracle
         (release_clientid (mk_tracker (VInt offset) l) x;;
          get_next_clientid (mk_tracker (VInt offset) l)) t)
  = Ok x.
Proof.
  intros Hunique Hfloor Hx Hpacked.
  unfold mbind, prog_bind.
  destruct (run_then oracle (release_clientid (mk_tracker (VInt offset) l) x)
              (get_next_clientid (mk_tracker (VInt offset) l)) t) as [-> _];
    [done|].
  rewrite run_release_clientid. unfold tbl; simpl.
  assert (allocatable offset (table_delete x t)) as Halloc.
  { destruct (table_delete x t) as [|z t'] eqn:Hdel; [by left|]. right.
    destruct (py_max_nonempty (z :: t')) as (hi & _ & Hhi); [done|].
    exists hi. split; [exact Hhi|].
    assert (offset ≤ hi); [|lia].
    apply Hfloor. apply (table_delete_subseteq x). rewrite Hdel.
    by apply is_max_elem. }
  destruct (run_get_next_clientid_allocatable oracle offset l _ Halloc)
    as (m & -> & Hleast).
  unfold res; simpl. f_equal. apply (is_least_unique _ _ _ Hleast). split.
  - split; [by apply Hfloor | by apply table_delete_unique].
  - intros y [Hy Hfree].
    destruct (decide (x ≤ y)) as [|Hlt]; [done|]. exfalso. apply Hfree.
    apply elem_of_table_delete_ne; [lia|]. apply Hpacked. lia.
Qed.

Lemma release_then_next_is_released_example :
  res (run no_failure
         (release_clientid (mk_tracker (VInt 5) "mongoIDTracker") 6;;
          get_next_clientid (mk_tracker (VInt 5) "mongoIDTracker")) [5; 6; 7; 9])
  = Ok 6.
Proof.
  apply (release_then_next_is_released no_failure 5 "mongoIDTracker" [5; 6; 7; 9] 6).
  - repeat (apply NoDup_cons; split;
            [rewrite ?elem_of_cons, ?elem_of_nil; lia|]).
    apply NoDup_nil_2.
  - intros y Hy. rewrite !elem_of_cons, elem_of_nil in Hy. lia.
  - right; left.
  - intros y Hy. assert (y = 5) as -> by lia. left.
Defined.

Lemma run_bind_ok {A B} oracle (p : prog A) (f : A → prog B) (t t' : table)
    (a : A) (tr : list event) :
  run oracle p t = (Ok a, t', tr) →
  run oracle (bind p f) t
  = (res (run oracle (f a) t'), tbl (run oracle (f a) t'),
     tr ++ trace (run oracle (f a) t')).
Proof.
  intros Hrun. rewrite run_bind, Hrun. cbn [then_run].
  by destruct (run oracle (f a) t') as [[r t''] tr'].
Qed.

(** X7.  Lock, release, lock again: on a table that is empty or whose
    largest id is at least [offset - 1], releasing the id that
    [get_next_clientid] has just returned puts the table back as it was,
    record for record, and the next [get_next_clientid] returns the same
    id. *)
Theorem allocate_release_allocate oracle (offset : Z) (l : string) (t : table) :
  allocatable offset t →
  ∃ m,
    run oracle
      (m1 ← get_next_clientid (mk_tracker (VInt offset) l);
       release_clientid (mk_tracker (VInt offset) l) m1;;
       Ret m1) t
    = (Ok m, t,
       [EvFind t; EvInsert m true; EvLog (MsgLocked m);
        EvDelete m; EvLog (MsgReleased m)])
    ∧ res (run oracle
             (m1 ← get_next_clientid (mk_tracker (VInt offset) l);
              release_clientid (mk_tracker (VInt offset) l) m1;;
              m2 ← get_next_clientid (mk_tracker (VInt offset) l);
              Ret (m1, m2)) t)
      = Ok (m, m).
Proof.
  intros Ht.
  destruct (run_get_next_clientid_allocatable oracle offset l t Ht)
    as (m & Hrun & [[_ Hfree] _]).
  exists m. unfold mbind, prog_bind. split.
  - rewrite (run_bind_ok _ _ _ _ _ _ _ Hrun).
    rewrite (run_bind_ok _ _ _ _ _ _ _ (run_release_clientid _ _ _ _)).
    unfold res, tbl, trace; simpl. by rewrite table_delete_last.
  - rewrite (run_bind_ok _ _ _ _ _ _ _ Hrun).
    rewrite (run_bind_ok _ _ _ _ _ _ _ (run_release_clientid _ _ _ _)).
    rewrite table_delete_last by done.
    rewrite (run_bind_ok _ _ _ _ _ _ _ Hrun). reflexivity.
Qed.

Lemma allocate_release_allocate_example :
  ∃ m,
    run no_failure
      (m1 ← get_next_clientid (mk_tracker (VInt 1) "mongoIDTracker");
       release_clientid (mk_tracker (VInt 1) "mongoIDTracker") m1;;
       Ret m1) [3; 1]
    = (Ok m, [3; 1],
       [EvFind [3; 1]; EvInsert m true; EvLog (MsgLocked m);
        EvDelete m; EvLog (MsgReleased m)])
    ∧ res (run no_failure
             (m1 ← get_next_clientid (mk_tracker (VInt 1) "mongoIDTracker");
              release_clientid (mk_tracker (VInt 1) "mongoIDTracker") m1;;
              m2 ← get_next_clientid (mk_tracker (VInt 1) "mongoIDTracker");
              Ret (m1, m2)) [3; 1])
      = Ok (m, m).
Proof.
  apply (allocate_release_allocate no_failure 1 "mongoIDTracker" [3; 1]).
  right. exists 3. split; [|lia]. split; [left|].
  intros y Hy. rewrite !elem_of_cons, elem_of_nil in Hy. lia.
Defined.

(** X8.  [clear_all_clientids] never raises and leaves the table empty
    whatever it held, so that the next [get_next_clientid] returns the
    offset, also on a table on which it would have raised. *)
Theorem clear_all_then_next oracle (offset : Z) (l : string) (t : table) :
  run oracle (clear_all_clientids (mk_tracker (VInt offset) l)) t
  = (Ok (), [], [EvDeleteMany; EvLog MsgReleasedAll])
  ∧ run oracle
      (clear_all_clientids (mk_tracker (VInt offset) l);;
       get_next_clientid (mk_tracker (VInt offset) l)) t
    = (Ok offset, [offset],
       [EvDeleteMany; EvLog MsgReleasedAll;
        EvFind []; EvInsert offset true; EvLog (MsgLocked offset)]).
Proof.
  split; [reflexivity|]. unfold mbind, prog_bind.
  rewrite (run_bind_ok oracle _ _ t [] () [EvDeleteMany; EvLog MsgReleasedAll])
    by reflexivity.
  by rewrite get_next_clientid_empty.
Qed.

(** ** Queries *)

Lemma run_is_clientid_used oracle (self : mongoIBclientIDtracker)
    (clientid : Z) (t : table) :
  run oracle (_is_clientid_used self clientid) t
  = (Ok (bool_decide (clientid ∈ t)), t, [EvFind t]).
Proof.
  unfold run, _is_clientid_used; simpl.
  by destruct (decide (clientid ∈ t)) as [Hin|Hout];
    [rewrite bool_decide_eq_true_2 | rewrite bool_decide_eq_false_2].
Qed.

(** X9.  [_is_clientid_used] answers from one read and changes nothing;
    it answers [True] for the id that [get_next_clientid] has just
    returned, and, on a table with one record per id, [False] for an id
    that [release_clientid] has just released. *)
Theorem is_clientid_used_follows_lock oracle (offset : Z) (l : string)
    (t : table) :
  allocatable offset t →
  NoDup t →
  (∀ c, run oracle (_is_clientid_used (mk_tracker (VInt offset) l) c) t
        = (Ok (bool_decide (c ∈ t)), t, [EvFind t]))
  ∧ (∃ m, res (run oracle
                 (m ← get_next_clientid (mk_tracker (VInt offset) l);
                  used ← _is_clientid_used (mk_tracker (VInt offset) l) m;
                  Ret (m, used)) t)
          = Ok (m, true))
  ∧ (∀ c, res (run oracle
                 (release_clientid (mk_tracker (VInt offset) l) c;;
                  _is_clientid_used (mk_tracker (VInt offset) l) c) t)
          = Ok false).
Proof.
  intros Ht Hunique. split; [intros c; apply run_is_clientid_used|].
  unfold mbind, prog_bind. split.
  - destruct (run_get_next_clientid_allocatable oracle offset l t Ht)
      as (m & Hrun & _).
    exists m. rewrite (run_bind_ok _ _ _ _ _ _ _ Hrun).
    rewrite (run_bind_ok _ _ _ _ _ _ _ (run_is_clientid_used _ _ _ _)).
    unfold res; simpl. rewrite bool_decide_eq_true_2; [done|].
    apply elem_of_app. right. left.
  - intros c. rewrite (run_bind_ok _ _ _ _ _ _ _ (run_release_clientid _ _ _ _)).
    rewrite run_is_clientid_used. unfold res; simpl.
    rewrite bool_decide_eq_false_2; [done|]. by apply table_delete_unique.
Qed.

Lemma is_clientid_used_follows_lock_example :
  res (run no_failure
         (release_clientid (mk_tracker (VInt 1) "mongoIDTracker") 2;;
          _is_clientid_used (mk_tracker (VInt 1) "mongoIDTracker") 2) [1; 2])
  = Ok false.
Proof.
  refine (proj2 (proj2 (is_clientid_used_follows_lock no_failure 1
                          "mongoIDTracker" [1; 2] _ _)) 2).
  - right. exists 2. split; [|lia]. split; [right; left|].
    intros y Hy. rewrite !elem_of_cons, elem_of_nil in Hy. lia.
  - repeat (apply NoDup_cons; split;
            [rewrite ?elem_of_cons, ?elem_of_nil; lia|]).
    apply NoDup_nil_2.
Defined.

(** ** Releases *)

Lemma table_delete_commute (a b : Z) (t : table) :
  table_delete a (table_delete b t) = table_delete b (table_delete a t).
Proof.
  induction t as [|x t IH]; [done|]. simpl.
  destruct (decide (x = b)) as [Hb|Hb], (decide (x = a)) as [Ha|Ha]; simpl.
  - by subst.
  - by rewrite decide_True.
  - by rewrite decide_True.
  - rewrite !decide_False by done. by rewrite IH.
Qed.

(** X10.  Releases of one process commute: releasing [a] then [b] leaves
    the table that releasing [b] then [a] leaves.  On a table with one
    record per id a second release of the same id changes nothing. *)
Theorem release_clientid_commute oracle (self : mongoIBclientIDtracker)
    (a b : Z) (t : table) :
  tbl (run oracle (release_clientid self a;; release_clientid self b) t)
  = tbl (run oracle (release_clientid self b;; release_clientid self a) t)
  ∧ (NoDup t →
     tbl (run oracle (release_clientid self a;; release_clientid self a) t)
     = tbl (run oracle (release_clientid self a) t)).
Proof.
  unfold run, tbl; simpl. split; [apply table_delete_commute|].
  intros Hunique. apply table_delete_absent. by apply table_delete_unique.
Qed.

(** ** More on the defaults *)

Lemma ib_defaults_not_mapping_raises_with (kwargs : gmap string pyval) :
  ib_defaults (Loaded YNotMapping) kwargs
  = Raise (if decide (kwargs_get kwargs "ipaddress" = VNone
                      ∧ kwargs_get kwargs "port" = VNone
                      ∧ kwargs_get kwargs "idoffset" = VNone)
           then AttributeError else TypeError).
Proof.
  unfold ib_defaults. cbn [overwrite_with_args].
  unfold overwrite_with_arg. cbv zeta.
  destruct (decide (kwargs_get kwargs "ipaddress" = VNone)) as [H1|H1];
    cbn [mbind result_bind py_setitem];
    [|by rewrite decide_False by tauto].
  destruct (decide (kwargs_get kwargs "port" = VNone)) as [H2|H2];
    cbn [mbind result_bind py_setitem];
    [|by rewrite decide_False by tauto].
  destruct (decide (kwargs_get kwargs "idoffset" = VNone)) as [H3|H3];
    cbn [mbind result_bind py_setitem py_get];
    [by rewrite decide_True | by rewrite decide_False by tauto].
Qed.

(** X11.  A config file that loads, but not as a mapping (an empty file
    loads as [None]), is not treated as an empty configuration:
    [ib_defaults] raises [TypeError] at the first argument that was
    passed and is not [None], and [AttributeError] at the first [get]
    when there is none. *)
Theorem ib_defaults_not_mapping_error (kwargs : gmap string pyval) :
  ib_defaults (Loaded YNotMapping) kwargs
  = Raise (if decide (kwargs_get kwargs "ipaddress" = VNone
                      ∧ kwargs_get kwargs "port" = VNone
                      ∧ kwargs_get kwargs "idoffset" = VNone)
           then AttributeError else TypeError).
Proof. apply ib_defaults_not_mapping_raises_with. Qed.

Lemma overwrite_with_args_ext (kwargs kwargs' : gmap string pyval)
    (arg_names : list string) :
  (∀ arg_name, kwargs_get kwargs arg_name = kwargs_get kwargs' arg_name) →
  ∀ yaml_dict,
    overwrite_with_args kwargs yaml_dict arg_names
    = overwrite_with_args kwargs' yaml_dict arg_names.
Proof.
  intros Hsame. induction arg_names as [|arg_name rest IH]; intros yaml_dict;
    [done|].
  cbn [overwrite_with_args]. unfold overwrite_with_arg. rewrite Hsame. cbv zeta.
  destruct (decide (kwargs_get kwargs' arg_name = VNone));
    cbn [mbind result_bind]; [apply IH|].
  destruct (py_setitem yaml_dict _ _) as [doc|e];
    cbn [mbind result_bind]; [apply IH | done].
Qed.

Lemma ib_defaults_ext (config_file : config_source)
    (kwargs kwargs' : gmap string pyval) :
  (∀ arg_name, kwargs_get kwargs arg_name = kwargs_get kwargs' arg_name) →
  ib_defaults config_file kwargs = ib_defaults config_file kwargs'.
Proof.
  intros Hsame. unfold ib_defaults.
  by rewrite (overwrite_with_args_ext kwargs kwargs' _ Hsame).
Qed.

(** X12.  An argument passed as [None] is an argument not passed, for
    every config file: this is what lets [connectionIB.__init__] forward
    its own [ipaddress] and [port], [None] by default, as they are. *)
Theorem ib_defaults_none_is_absent (config_file : config_source)
    (kwargs : gmap string pyval) (arg_name : string) :
  ib_defaults config_file (<[arg_name := VNone]> kwargs)
  = ib_defaults config_file (delete arg_name kwargs).
Proof.
  apply ib_defaults_ext. intros a. unfold kwargs_get.
  destruct (decide (arg_name = a)) as [->|Hne].
  - by rewrite lookup_insert_eq, lookup_delete_eq.
  - by rewrite lookup_insert_ne, lookup_delete_ne.
Qed.

(** ** The life of a connection *)

Lemma connectionIB_tracker_mapping (d : gmap string pyval) (client : option Z)
    (ipaddress port : pyval) (l : string) :
  connectionIB_tracker (Loaded (YMapping d)) client ipaddress port l
  = Ok (by_precedence (Some ipaddress) (d !! "ib_ipaddress")
          (VStr DEFAULT_IB_IPADDRESS),
        by_precedence (Some port) (d !! "ib_port") (VInt DEFAULT_IB_PORT),
        mk_tracker (default (VInt DEFAULT_IB_IDOFFSET) (d !! "ib_idoffset")) l).
Proof.
  unfold connectionIB_tracker. rewrite ib_defaults_mapping.
  cbn [mbind result_bind].
  assert ((<["ipaddress"%string := ipaddress]> (<["port"%string := port]> ∅)
             : gmap string pyval) !! "idoffset"%string = None) as ->
    by by simplify_map_eq.
  assert ((<["ipaddress"%string := ipaddress]> (<["port"%string := port]> ∅)
             : gmap string pyval) !! "ipaddress"%string = Some ipaddress) as ->
    by by simplify_map_eq.
  assert ((<["ipaddress"%string := ipaddress]> (<["port"%string := port]> ∅)
             : gmap string pyval) !! "port"%string = Some port) as ->
    by by simplify_map_eq.
  cbn [by_precedence].
  by rewrite (tracker_init_idoffset d _ l eq_refl).
Qed.

(** A construction that returns, in terms of the tracker it built and
    the id it locked. *)
Lemma run_connectionIB_init_conn oracle (config_file : config_source)
    (client : option Z) (ipaddress port : pyval) (l : string) (t : table)
    (conn : connectionIB) :
  res (run oracle (connectionIB_init config_file client ipaddress port l) t)
  = Ok conn →
  ∃ ipaddress' port' tracker m,
    connectionIB_tracker config_file client ipaddress port l
    = Ok (ipaddress', port', tracker)
    ∧ conn = mk_connection tracker (mk_config ipaddress' port' m)
    ∧ (m ∉ t)
    ∧ run oracle (connectionIB_init config_file client ipaddress port l) t
      = (Ok conn, t ++ [m], EvFind t :: init_events ipaddress' port' m).
Proof.
  unfold connectionIB_init.
  destruct (connectionIB_tracker config_file client ipaddress port l)
    as [[[ipaddress' port'] tracker]|e]; [|discriminate].
  cbn [lift mbind prog_bind bind].
  destruct client as [requested|]; [discriminate|].
  cbn [return_valid_client_id].
  unfold mbind, prog_bind. rewrite run_bind, run_get_next_clientid_alone.
  destruct (next_id_of tracker t) as [next_id|e]; [|discriminate].
  unfold table_insert. destruct (decide (next_id ∈ t)) as [|Hfree]; [discriminate|].
  cbn [then_run]. unfold log, extern, run, res.
  cbn [bind run_with emit].
  destruct (oracle IbServerInit); simpl; [discriminate|].
  destruct (oracle (IbClientInit (next_id * 1000))); simpl; [discriminate|].
  destruct (oracle BrokerInitError); simpl; [discriminate|].
  destruct (oracle (Connect ipaddress' port' next_id)); simpl; [discriminate|].
  destruct (oracle ThreadStart); simpl; [discriminate|].
  intros [= <-]. by exists ipaddress', port', tracker, next_id.
Qed.




(** X14.  A session gives back what it took: closing a connection that
    was constructed on a table leaves that table as it was before the
    construction, record for record, whether [disconnect] raises or
    not. *)
Theorem connectionIB_close_restores_table oracle oracle'
    (config_file : config_source) (client : option Z) (ipaddress port : pyval)
    (l : string) (t : table) (conn : connectionIB) :
  res (run oracle (connectionIB_init config_file client ipaddress port l) t)
  = Ok conn →
  res (run oracle' (close_connection conn)
         (tbl (run oracle
                 (connectionIB_init config_file client ipaddress port l) t)))
  = Ok ()
  ∧ tbl (run oracle' (close_connection conn)
           (tbl (run oracle
                   (connectionIB_init config_file client ipaddress port l) t)))
    = t.
Proof.
  intros Hok.
  destruct (run_connectionIB_init_conn _ _ _ _ _ _ _ _ Hok)
    as (ipaddress' & port' & tracker & m & _ & -> & Hfree & ->).
  rewrite run_close_connection. unfold res, tbl; simpl.
  split; [done|]. by apply table_delete_last.
Qed.

Lemma connectionIB_close_restores_table_example :
  tbl (run disconnect_fails
         (close_connection
            (mk_connection (mk_tracker (VInt 1) "connectionIB")
               (mk_config (VStr "127.0.0.1") (VInt 4001) 2)))
         (tbl (run no_failure
                 (connectionIB_init LoadFails None VNone VNone "connectionIB")
                 [1; 3])))
  = [1; 3].
Proof.
  refine (proj2 (connectionIB_close_restores_table no_failure disconnect_fails
                   LoadFails None VNone VNone "connectionIB" [1; 3] _ _)).
  vm_compute. reflexivity.
Defined.

(** X15.  A connection that was constructed over a config file that is a
    mapping holds, and has passed to [connect], the address and the port
    resolved by precedence (the argument if it is not [None], else the
    entry of the file, else the default) together with the client id it
    locked; its tracker allocates from the [ib_idoffset] of the file, or
    from 1. *)
Theorem connectionIB_init_config oracle (d : gmap string pyval)
    (client : option Z) (ipaddress port : pyval) (l : string) (t : table)
    (conn : connectionIB) :
  res (run oracle
         (connectionIB_init (Loaded (YMapping d)) client ipaddress port l) t)
  = Ok conn →
  cfg_ipaddress (_ib_connection_config conn)
  = by_precedence (Some ipaddress) (d !! "ib_ipaddress") (VStr "127.0.0.1")
  ∧ cfg_port (_ib_connection_config conn)
    = by_precedence (Some port) (d !! "ib_port") (VInt 4001)
  ∧ _idoffset (db_id_tracker conn) = default (VInt 1) (d !! "ib_idoffset")
  ∧ EvInsert (cfg_client (_ib_connection_config conn)) true
      ∈ trace (run oracle
                 (connectionIB_init (Loaded (YMapping d)) client ipaddress port l) t)
  ∧ EvExtern (Connect (cfg_ipaddress (_ib_connection_config conn))
                (cfg_port (_ib_connection_config conn))
                (cfg_client (_ib_connection_config conn))) None
      ∈ trace (run oracle
                 (connectionIB_init (Loaded (YMapping d)) client ipaddress port l) t).
Proof.
  intros Hok.
  destruct (run_connectionIB_init_conn _ _ _ _ _ _ _ _ Hok)
    as (ipaddress' & port' & tracker & m & Htracker & -> & _ & ->).
  rewrite connectionIB_tracker_mapping in Htracker.
  injection Htracker as <- <- <-. unfold trace, init_events; simpl.
  split; [done|]. split; [done|]. split; [done|]. split.
  - right; left.
  - do 7 right. left.
Qed.

Lemma connectionIB_init_config_example :
  cfg_port (_ib_connection_config
              (mk_connection (mk_tracker (VInt 10) "connectionIB")
                 (mk_config (VStr "10.0.0.1") (VInt 7496) 10)))
  = by_precedence (Some VNone)
      (({[ "ib_port"%string := VInt 7496; "ib_idoffset"%string := VInt 10 ]}
          : gmap string pyval) !! "ib_port"%string)
      (VInt 4001).
Proof.
  refine (proj1 (proj2 (connectionIB_init_config no_failure
                   {[ "ib_port"%string := VInt 7496;
                      "ib_idoffset"%string := VInt 10 ]}
                   None (VStr "10.0.0.1") VNone "connectionIB" [] _ _))).
  vm_compute. reflexivity.
Defined.

(** X16.  Construction over a config file that loads but is not a
    mapping fails before the table is touched and before any call into
    the IB client: with [AttributeError] when neither address nor port
    was passed, with [TypeError] otherwise.  No id is locked. *)
Theorem connectionIB_init_not_mapping oracle (others : schedule)
    (client : option Z) (ipaddress port : pyval) (l : string) (t : table) :
  run_with oracle others
    (connectionIB_init (Loaded YNotMapping) client ipaddress port l) t
  = (Raise (if decide (ipaddress = VNone ∧ port = VNone)
            then AttributeError else TypeError),
     t, []).
Proof.
  unfold connectionIB_init, connectionIB_tracker.
  rewrite ib_defaults_not_mapping_raises_with. unfold kwargs_get.
  assert ((<["ipaddress"%string := ipaddress]> (<["port"%string := port]> ∅)
             : gmap string pyval) !! "idoffset"%string = None) as ->
    by by simplify_map_eq.
  assert ((<["ipaddress"%string := ipaddress]> (<["port"%string := port]> ∅)
             : gmap string pyval) !! "ipaddress"%string = Some ipaddress) as ->
    by by simplify_map_eq.
  assert ((<["ipaddress"%string := ipaddress]> (<["port"%string := port]> ∅)
             : gmap string pyval) !! "port"%string = Some port) as ->
    by by simplify_map_eq.
  cbn [default mbind result_bind lift prog_bind bind run_with].
  destruct (decide (ipaddress = VNone ∧ port = VNone)) as [[-> ->]|Hpassed].
  - by rewrite decide_True.
  - by rewrite decide_False by tauto.
Qed.

(** X17.  A tracker constructed with an offset of its own never looks at
    the config file, so it is constructed even over a file that is not a
    mapping; constructed with [None] it takes the [ib_idoffset] of the
    file, or 1, and fails over such a file. *)
Theorem mongoIBclientIDtracker_init_offset (config_file : config_source)
    (idoffset : pyval) (l : string) :
  (idoffset ≠ VNone →
   mongoIBclientIDtracker_init config_file idoffset l
   = Ok (mk_tracker idoffset l))
  ∧ _idoffset <$> value_of (mongoIBclientIDtracker_init config_file VNone l)
    = configured_idoffset config_file.
Proof.
  unfold mongoIBclientIDtracker_init. split.
  - intros Hgiven. by rewrite decide_False.
  - rewrite decide_True by done. destruct config_file as [|[d|]].
    + rewrite ib_defaults_load_fails, ib_defaults_mapping; cbn.
      by rewrite !lookup_empty.
    + rewrite ib_defaults_mapping; cbn. by rewrite lookup_empty.
    + by rewrite ib_defaults_not_mapping_raises_with.
Qed.

(** X18.  Two connections constructed one after the other, the first not
    yet closed, hold different client ids: the id of the first is in the
    table the second starts from, the id of the second is not, and the
    thousand request identifiers of the one are not among those of the
    other. *)
Theorem connectionIB_two_sessions oracle1 oracle2
    (config1 config2 : config_source) (client1 client2 : option Z)
    (ipaddress1 ipaddress2 port1 port2 : pyval) (l1 l2 : string) (t : table)
    (conn1 conn2 : connectionIB) :
  res (run oracle1 (connectionIB_init config1 client1 ipaddress1 port1 l1) t)
  = Ok conn1 →
  res (run oracle2 (connectionIB_init config2 client2 ipaddress2 port2 l2)
         (tbl (run oracle1
                 (connectionIB_init config1 client1 ipaddress1 port1 l1) t)))
  = Ok conn2 →
  cfg_client (_ib_connection_config conn1)
    ∈ tbl (run oracle1 (connectionIB_init config1 client1 ipaddress1 port1 l1) t)
  ∧ (cfg_client (_ib_connection_config conn2)
       ∉ tbl (run oracle1
                (connectionIB_init config1 client1 ipaddress1 port1 l1) t))
  ∧ (∀ reqId,
       reqID_namespace (cfg_client (_ib_connection_config conn1) * 1000) reqId
       = true →
       reqID_namespace (cfg_client (_ib_connection_config conn2) * 1000) reqId
       = false).
Proof.
  intros Hok1 Hok2.
  destruct (run_connectionIB_init_conn _ _ _ _ _ _ _ _ Hok1)
    as (ip1 & p1 & tracker1 & m1 & _ & -> & _ & Hrun1).
  rewrite Hrun1 in Hok2 |- *.
  destruct (run_connectionIB_init_conn _ _ _ _ _ _ _ _ Hok2)
    as (ip2 & p2 & tracker2 & m2 & _ & -> & Hfree2 & _).
  unfold tbl in *; simpl in *.
  assert (m1 ∈ t ++ [m1]) as Hheld1 by (apply elem_of_app; right; left).
  split; [exact Hheld1|]. split; [exact Hfree2|].
  intros reqId. apply reqID_namespace_disjoint. by intros ->.
Qed.

Lemma connectionIB_two_sessions_example :
  1 ∈ tbl (run no_failure
             (connectionIB_init LoadFails None VNone VNone "connectionIB") []).
Proof.
  refine (proj1 (connectionIB_two_sessions no_failure no_failure
                   LoadFails LoadFails None None VNone VNone VNone VNone
                   "connectionIB" "connectionIB" []
                   (mk_connection (mk_tracker (VInt 1) "connectionIB")
                      (mk_config (VStr "127.0.0.1") (VInt 4001) 1))
                   (mk_connection (mk_tracker (VInt 1) "connectionIB")
                      (mk_config (VStr "127.0.0.1") (VInt 4001) 2))
                   _ _)); vm_compute; reflexivity.
Defined.
